(** * YT-PlaylistGen: a shallow embedding of [playlist_gen.py]

    The script reads YouTube links from a text file, authenticates with
    OAuth 2.0, creates a playlist and inserts every video into it.

    Part I embeds the program: Python text as lists of code points, the two
    regular expressions of [extract_video_id] as a left-most search, and the
    effectful functions ([get_authenticated_service], [create_playlist],
    [add_video_to_playlist], [main]) in a small state-and-exception monad
    over an abstract outside world.  Part II states and proves the
    properties. *)

From Stdlib Require Import Strings.String Strings.Ascii Strings.Byte.
From Stdlib Require Import List Bool Arith ZArith NArith Lia.
Import ListNotations.

Set Implicit Arguments.

(* ================================================================== *)
(** * Part I: the program *)
(* ================================================================== *)

(** ** Python text

    A [str] is a sequence of Unicode code points; [bytes] is a sequence of
    octets.  String literals of the source are written [lit "..."]. *)

Definition char := N.
Definition str := list char.
Definition bytes := list byte.

Definition lit (s : string) : str :=
  map N_of_ascii (list_ascii_of_string s).

Definition between (lo hi c : N) : bool := ((lo <=? c) && (c <=? hi))%N.

(** [str.isspace] on one code point: the characters removed by
    [str.strip()] when it is called without argument. *)
Definition is_space (c : char) : bool :=
  between 9 13 c || between 28 32 c || (c =? 133)%N || (c =? 160)%N
  || (c =? 5760)%N || between 8192 8202 c || (c =? 8232)%N || (c =? 8233)%N
  || (c =? 8239)%N || (c =? 8287)%N || (c =? 12288)%N.

Fixpoint lstrip (s : str) : str :=
  match s with
  | c :: s' => if is_space c then lstrip s' else s
  | [] => []
  end.

Definition rstrip (s : str) : str := rev (lstrip (rev s)).

(** [s.strip()] *)
Definition strip (s : str) : str := rstrip (lstrip s).

(** Truth value of a [str]: the empty string is false. *)
Definition nonempty (s : str) : bool :=
  match s with [] => false | _ :: _ => true end.

(** Truth value of a value that is [None] or a [str]. *)
Definition truthy (o : option str) : bool :=
  match o with Some s => nonempty s | None => false end.

(** ** Link parser: [extract_video_id]

    Both patterns have the shape [(?:m1|m2|...)([a-zA-Z0-9_-]{11})]: a
    literal marker out of an ordered list, then exactly eleven identifier
    characters, which form group 1. *)

(** The character class [[a-zA-Z0-9_-]]. *)
Definition is_id_char (c : char) : bool :=
  between 97 122 c || between 65 90 c || between 48 57 c
  || (c =? 95)%N || (c =? 45)%N.

(** Match the literal [p] at the head of [s]; the rest of [s] on success. *)
Fixpoint strip_prefix (p s : str) : option str :=
  match p, s with
  | [], _ => Some s
  | a :: p', b :: s' => if (a =? b)%N then strip_prefix p' s' else None
  | _ :: _, [] => None
  end.

(** [[a-zA-Z0-9_-]{n}] at the head of [s]; the matched text on success. *)
Fixpoint take_id (n : nat) (s : str) : option str :=
  match n with
  | O => Some []
  | S n' =>
      match s with
      | c :: s' =>
          if is_id_char c then
            match take_id n' s' with
            | Some r => Some (c :: r)
            | None => None
            end
          else None
      | [] => None
      end
  end.

Definition ID_LENGTH : nat := 11.

(** The alternatives of the first pattern, in the order of the source:
    [v=|youtu\.be\/|embed\/|v\/|watch\?v=|\/videos\/]. *)
Definition watch_markers : list str :=
  [lit "v="; lit "youtu.be/"; lit "embed/"; lit "v/"; lit "watch?v=";
   lit "/videos/"].

(** The second pattern, [shorts\/(...)]. *)
Definition shorts_markers : list str := [lit "shorts/"].

(** A match attempt at one position: the alternatives are tried from left
    to right, and the matcher falls back to the next alternative when the
    identifier group fails after a marker. *)
Fixpoint match_here (alts : list str) (s : str) : option str :=
  match alts with
  | [] => None
  | a :: rest =>
      match strip_prefix a s with
      | Some t =>
          match take_id ID_LENGTH t with
          | Some id => Some id
          | None => match_here rest s
          end
      | None => match_here rest s
      end
  end.

(** [re.search(pattern, s)] followed by [.group(1)]: the left-most position
    at which the pattern matches wins; [None] when there is none. *)
Fixpoint re_search (alts : list str) (s : str) : option str :=
  match match_here alts s with
  | Some id => Some id
  | None =>
      match s with
      | [] => None
      | _ :: s' => re_search alts s'
      end
  end.

(** [extract_video_id(url)].  A match object is always true, so
    [if match:] is the test for a match. *)
Definition extract_video_id (url : str) : option str :=
  match re_search watch_markers url with
  | Some id => Some id
  | None =>
      match re_search shorts_markers url with
      | Some id => Some id
      | None => None
      end
  end.

(** ** Bytes, decoding, lower case, substring

    [content.decode()] is the strict UTF-8 decoder: it raises
    [UnicodeDecodeError] on ill-formed input (stray or missing continuation
    bytes, over-long forms, surrogates, values above U+10FFFF). *)

Definition cons_some (c : char) (o : option str) : option str :=
  match o with Some s => Some (c :: s) | None => None end.

(** Range of the second byte of a three-byte form, after lead byte [b1]. *)
Definition second_of_three (b1 b2 : N) : bool :=
  if (b1 =? 224)%N then between 160 191 b2
  else if (b1 =? 237)%N then between 128 159 b2
  else between 128 191 b2.

(** Range of the second byte of a four-byte form, after lead byte [b1]. *)
Definition second_of_four (b1 b2 : N) : bool :=
  if (b1 =? 240)%N then between 144 191 b2
  else if (b1 =? 244)%N then between 128 143 b2
  else between 128 191 b2.

Definition continuation (b : N) : bool := between 128 191 b.

Fixpoint utf8_decode_octets (bs : list N) : option str :=
  match bs with
  | [] => Some []
  | b1 :: t1 =>
      if (b1 <? 128)%N then cons_some b1 (utf8_decode_octets t1)
      else if between 194 223 b1 then
        match t1 with
        | b2 :: t2 =>
            if continuation b2
            then cons_some ((b1 - 192) * 64 + (b2 - 128))%N
                           (utf8_decode_octets t2)
            else None
        | [] => None
        end
      else if between 224 239 b1 then
        match t1 with
        | b2 :: b3 :: t3 =>
            if second_of_three b1 b2 && continuation b3
            then cons_some ((b1 - 224) * 4096 + (b2 - 128) * 64 + (b3 - 128))%N
                           (utf8_decode_octets t3)
            else None
        | _ => None
        end
      else if between 240 244 b1 then
        match t1 with
        | b2 :: b3 :: b4 :: t4 =>
            if second_of_four b1 b2 && continuation b3 && continuation b4
            then cons_some ((b1 - 240) * 262144 + (b2 - 128) * 4096
                            + (b3 - 128) * 64 + (b4 - 128))%N
                           (utf8_decode_octets t4)
            else None
        | _ => None
        end
      else None
  end.

Definition utf8_decode (content : bytes) : option str :=
  utf8_decode_octets (map Byte.to_N content).

(** [bytes] of an ASCII literal. *)
Definition blit (s : string) : bytes := list_byte_of_string s.

(** [needle in hay] for two strings. *)
Fixpoint is_prefix (p s : str) : bool :=
  match p, s with
  | [], _ => true
  | a :: p', b :: s' => (a =? b)%N && is_prefix p' s'
  | _ :: _, [] => false
  end.

Fixpoint contains (needle hay : str) : bool :=
  is_prefix needle hay
  || match hay with
     | [] => false
     | _ :: hay' => contains needle hay'
     end.

(** [str.lower()].  ASCII letters are mapped here; the lower-case mapping of
    the code points from 128 on comes from the Unicode data base of the
    interpreter, a table that is not part of the script: [tbl before c after]
    is the lower-case form of [c] standing between [before] and [after] (the
    mapping of capital sigma looks at its context). *)
Definition ascii_lower (c : char) : char :=
  if between 65 90 c then (c + 32)%N else c.

Fixpoint lower_from (tbl : str -> char -> str -> str) (before s : str) : str :=
  match s with
  | [] => []
  | c :: rest =>
      (if (c <? 128)%N then [ascii_lower c] else tbl before c rest)
        ++ lower_from tbl (before ++ [c]) rest
  end.

Definition lower (tbl : str -> char -> str -> str) (s : str) : str :=
  lower_from tbl [] s.

(** ** Exceptions, messages, events *)

Inductive exn : Type :=
| HttpError (status : Z) (content : bytes)
    (* googleapiclient.errors.HttpError: e.resp.status, e.content *)
| UnicodeDecodeError (input : bytes)
| KeyError (key : str)
| OtherException (name : str)
    (* any other instance of Exception *)
| NonException (name : str).
    (* KeyboardInterrupt, SystemExit: BaseException but not Exception *)

(** [except Exception] catches [e]. *)
Definition is_Exception (e : exn) : bool :=
  match e with NonException _ => false | _ => true end.

Inductive result (A : Type) : Type :=
| Ret (a : A)
| Raise (e : exn).
Arguments Ret {A} a.
Arguments Raise {A} e.

(** The files the script names. *)
Inductive Path : Type :=
| YT_LINKS_FILE          (* 'yt_links.txt' *)
| CLIENT_SECRETS_FILE    (* 'config/client_secrets.json' *)
| CREDENTIALS_FILE.      (* 'config/credentials.json' *)

(** One constructor per [print] statement of the source, with the values the
    f-string interpolates. *)
Inductive Msg : Type :=
| MsgErrorLoadingCredentials (e : exn)
| MsgRefreshing
| MsgErrorRefreshing (e : exn)
| MsgInitiatingFlow
| MsgSecretsNotFound
| MsgSecretsDownload
| MsgSecretsRename
| MsgFlowError (e : exn)
| MsgFlowHint
| MsgCredentialsSaved
| MsgAttemptCreate (title : str)
| MsgCreated (title playlist_id : str)
| MsgCreateHttpError (status : Z) (body : str)
| MsgCreateUnexpected (e : exn)
| MsgAdding (video_id playlist_id : str)
| MsgAdded (video_id : str)
| MsgNotFound (video_id : str)
| MsgDuplicate (video_id : str)
| MsgAddHttpError (status : Z) (video_id body : str)
| MsgAddUnexpected (video_id : str) (e : exn)
| MsgLinksNotFound
| MsgLinksHelp
| MsgSkipUrl (url : str)
| MsgNoValidLinks
| MsgFound (count : nat)
| MsgAuthFailed
| MsgCreateFailed
| MsgStartAdding
| MsgFinished (added_count total : nat)
| MsgViewPlaylist (playlist_id : str).

(** The calls that leave the script. *)
Inductive Op : Type :=
| OsPathExists (p : Path)
| OpenLinks                  (* open(YT_LINKS_FILE, 'r') and its iteration *)
| FromAuthorizedUserFile     (* Credentials.from_authorized_user_file *)
| Refresh                    (* credentials.refresh(Request()) *)
| FromClientSecretsFile      (* InstalledAppFlow.from_client_secrets_file *)
| RunLocalServer             (* flow.run_local_server(port=0) *)
| SaveCredentials            (* open(CREDENTIALS_FILE, 'w'), write(to_json()) *)
| Build                      (* build('youtube', 'v3', credentials=...) *)
| PlaylistsInsert (title description privacy : str)
| PlaylistItemsInsert (playlist_id video_id : str).

Inductive Event : Type :=
| Print (m : Msg)
| Call (op : Op).

(** The response of [playlists().insert(...).execute()]: a dictionary. *)
Definition dict := list (str * str).

Fixpoint str_eqb (a b : str) : bool :=
  match a, b with
  | [], [] => true
  | x :: a', y :: b' => (x =? y)%N && str_eqb a' b'
  | _, _ => false
  end.

Fixpoint dict_get (key : str) (d : dict) : option str :=
  match d with
  | [] => None
  | (k, v) :: d' => if str_eqb k key then Some v else dict_get key d'
  end.

(** ** The outside world

    Everything the script does not compute itself: the file system, the
    Google authentication library, the YouTube service and the clock behind
    [credentials.valid].  Each call takes the state of the world and returns
    its answer, or the exception it raises, with the new state. *)

Class Runtime : Type := {
  World : Type;
  Credentials : Type;
  Flow : Type;
  Service : Type;
  (** the lower-case table of the interpreter for code points from 128 on *)
  unicode_lower : str -> char -> str -> str;
  (** what the user typed at the two [input] prompts *)
  entered_title : str;
  entered_description : str;
  os_path_exists : Path -> World -> bool * World;
  (** the lines iterated before the file object fails, if it does *)
  open_links : World -> (list str * option exn) * World;
  from_authorized_user_file : World -> result Credentials * World;
  (** [credentials.valid] and [credentials.expired] read the clock *)
  valid : Credentials -> World -> bool * World;
  expired : Credentials -> World -> bool * World;
  refresh_token : Credentials -> option str;
  (** [credentials.refresh] updates the object; the updated object *)
  refresh : Credentials -> World -> result Credentials * World;
  from_client_secrets_file : World -> result Flow * World;
  run_local_server : Flow -> World -> result Credentials * World;
  save_credentials : Credentials -> World -> result unit * World;
  build : Credentials -> World -> result Service * World;
  playlists_insert :
    Service -> str -> str -> str -> World -> result dict * World;
  playlist_items_insert :
    Service -> str -> str -> World -> result unit * World
}.

(** ** The monad of the script

    A computation reads and updates the world, emits events in order, and
    either returns a value or raises. *)

Section Script.

Context {R : Runtime}.

Definition M (A : Type) : Type := World -> list Event * result A * World.

Definition ret {A} (a : A) : M A := fun w => ([], Ret a, w).

Definition raise {A} (e : exn) : M A := fun w => ([], Raise e, w).

Definition bind {A B} (m : M A) (k : A -> M B) : M B :=
  fun w =>
    match m w with
    | (t1, Ret a, w1) =>
        match k a w1 with
        | (t2, r, w2) => (t1 ++ t2, r, w2)
        end
    | (t1, Raise e, w1) => (t1, Raise e, w1)
    end.

(** [try: m  except ...: h e]; the handler decides what it catches and
    re-raises the rest; an exception raised by the handler escapes. *)
Definition try_except {A} (m : M A) (h : exn -> M A) : M A :=
  fun w =>
    match m w with
    | (t1, Ret a, w1) => (t1, Ret a, w1)
    | (t1, Raise e, w1) =>
        match h e w1 with
        | (t2, r, w2) => (t1 ++ t2, r, w2)
        end
    end.

Definition print (m : Msg) : M unit := fun w => ([Print m], Ret tt, w).

(** An outside call that may raise. *)
Definition call {A} (op : Op) (f : World -> result A * World) : M A :=
  fun w => let (r, w') := f w in ([Call op], r, w').

(** An outside call that always answers. *)
Definition ask {A} (op : Op) (f : World -> A * World) : M A :=
  fun w => let (a, w') := f w in ([Call op], Ret a, w').

(** Reading a property of an object: no call is made. *)
Definition peek {A} (f : World -> A * World) : M A :=
  fun w => let (a, w') := f w in ([], Ret a, w').

End Script.

Declare Scope script_scope.
Delimit Scope script_scope with script.
Notation "x <- m ;; k" := (bind m (fun x => k))
  (at level 61, m at next level, right associativity) : script_scope.
Notation "m ;; k" := (bind m (fun _ => k))
  (at level 61, right associativity) : script_scope.
Open Scope script_scope.

Section Program.

Context {R : Runtime}.

(** ** Configuration (module level) *)

Definition DEFAULT_PLAYLIST_TITLE : str := lit "My New Playlist".
Definition DEFAULT_PLAYLIST_DESCRIPTION : str :=
  lit "Playlist created automatically using a Python script.".
Definition PLAYLIST_PRIVACY_STATUS : str := lit "unlisted".

(** [input(...).strip()], replaced by the default when empty. *)
Definition PLAYLIST_TITLE : str :=
  let t := strip entered_title in
  if nonempty t then t else DEFAULT_PLAYLIST_TITLE.

Definition PLAYLIST_DESCRIPTION : str :=
  let d := strip entered_description in
  if nonempty d then d else DEFAULT_PLAYLIST_DESCRIPTION.

(** [e.content.decode()] *)
Definition decode (content : bytes) : M str :=
  match utf8_decode content with
  | Some s => ret s
  | None => raise (UnicodeDecodeError content)
  end.

(** ** Authenticator: [get_authenticated_service] *)

(** Lines 51-57: [credentials] after the attempt to load the stored file. *)
Definition load_credentials : M (option Credentials) :=
  found <- ask (OsPathExists CREDENTIALS_FILE) (os_path_exists CREDENTIALS_FILE) ;;
  if found : bool then
    try_except
      (c <- call FromAuthorizedUserFile from_authorized_user_file ;;
       ret (Some c))
      (fun e =>
         if is_Exception e then
           print (MsgErrorLoadingCredentials e) ;; ret None
         else raise e)
  else ret None.

(** Lines 61-67: the refresh attempt on a loaded, invalid credential. *)
Definition try_refresh (c : Credentials) : M (option Credentials) :=
  is_expired <- peek (expired c) ;;
  if (is_expired : bool) && truthy (refresh_token c) then
    print MsgRefreshing ;;
    try_except
      (c' <- call Refresh (refresh c) ;; ret (Some c'))
      (fun e =>
         if is_Exception e then
           print (MsgErrorRefreshing e) ;; ret None
         else raise e)
  else ret (Some c).

(** Lines 70-88: the browser flow; [None] is the [return None] of the
    function. *)
Definition interactive_flow : M (option Credentials) :=
  print MsgInitiatingFlow ;;
  found <- ask (OsPathExists CLIENT_SECRETS_FILE)
               (os_path_exists CLIENT_SECRETS_FILE) ;;
  if negb found then
    print MsgSecretsNotFound ;;
    print MsgSecretsDownload ;;
    print MsgSecretsRename ;;
    ret None
  else
    flow <- call FromClientSecretsFile from_client_secrets_file ;;
    try_except
      (c <- call RunLocalServer (run_local_server flow) ;; ret (Some c))
      (fun e =>
         if is_Exception e then
           print (MsgFlowError e) ;; print MsgFlowHint ;; ret None
         else raise e).

(** Line 95. *)
Definition build_service (c : Credentials) : M (option Service) :=
  youtube <- call Build (build c) ;; ret (Some youtube).

(** Lines 90-95, reached with the new credentials, or not at all when the
    flow has returned [None]. *)
Definition finish (credentials : option Credentials) : M (option Service) :=
  match credentials with
  | None => ret None
  | Some c =>
      call SaveCredentials (save_credentials c) ;;
      print MsgCredentialsSaved ;;
      build_service c
  end.

(** Lines 69-95 when the test of line 69 holds: the browser flow, then the
    saving of what it returns. *)
Definition reauthenticate : M (option Service) :=
  credentials <- interactive_flow ;; finish credentials.

(** Lines 61-95, entered when [not credentials or not credentials.valid]. *)
Definition authorize (credentials : option Credentials) : M (option Service) :=
  credentials <- match credentials with
                 | Some c => try_refresh c
                 | None => ret None
                 end ;;
  (* line 69: if not credentials or not credentials.valid *)
  credentials <- match credentials with
                 | Some c =>
                     is_valid <- peek (valid c) ;;
                     if is_valid : bool then ret (Some c) else interactive_flow
                 | None => interactive_flow
                 end ;;
  finish credentials.

Definition get_authenticated_service : M (option Service) :=
  credentials <- load_credentials ;;
  (* line 60: if not credentials or not credentials.valid *)
  match credentials with
  | Some c =>
      is_valid <- peek (valid c) ;;
      if is_valid : bool then build_service c else authorize (Some c)
  | None => authorize None
  end.

(** ** Playlist client *)

(** [d[key]] *)
Definition subscript (d : dict) (key : str) : M str :=
  match dict_get key d with
  | Some v => ret v
  | None => raise (KeyError key)
  end.

Definition create_playlist (youtube_service : Service)
    (title description privacy_status : str) : M (option str) :=
  print (MsgAttemptCreate title) ;;
  try_except
    (response <- call (PlaylistsInsert title description privacy_status)
                      (playlists_insert youtube_service title description
                                        privacy_status) ;;
     playlist_id <- subscript response (lit "id") ;;
     print (MsgCreated title playlist_id) ;;
     ret (Some playlist_id))
    (fun e =>
       match e with
       | HttpError status content =>
           body <- decode content ;;
           print (MsgCreateHttpError status body) ;;
           ret None
       | _ =>
           if is_Exception e then
             print (MsgCreateUnexpected e) ;; ret None
           else raise e
       end).

(** The test of the [elif]:
    [e.resp.status == 400 and "duplicate" in e.content.decode().lower()];
    the body is decoded only when the status is 400. *)
Definition is_duplicate_error (status : Z) (content : bytes) : M bool :=
  if (status =? 400)%Z then
    body <- decode content ;;
    ret (contains (lit "duplicate") (lower unicode_lower body))
  else ret false.

(** Lines 163-171: the handler of [HttpError]. *)
Definition on_http_error (video_id : str) (status : Z) (content : bytes)
  : M bool :=
  if (status =? 404)%Z then
    print (MsgNotFound video_id) ;; ret false
  else
    duplicate <- is_duplicate_error status content ;;
    if duplicate : bool then
      print (MsgDuplicate video_id) ;; ret false
    else
      body <- decode content ;;
      print (MsgAddHttpError status video_id body) ;;
      ret false.

Definition add_video_to_playlist (youtube_service : Service)
    (playlist_id video_id : str) : M bool :=
  print (MsgAdding video_id playlist_id) ;;
  try_except
    (call (PlaylistItemsInsert playlist_id video_id)
          (playlist_items_insert youtube_service playlist_id video_id) ;;
     print (MsgAdded video_id) ;;
     ret true)
    (fun e =>
       match e with
       | HttpError status content => on_http_error video_id status content
       | _ =>
           if is_Exception e then
             print (MsgAddUnexpected video_id e) ;; ret false
           else raise e
       end).

(** ** Orchestrator: [main] *)

(** Lines 187-194: the loop over the lines of the file. *)
Fixpoint scan_lines (lines : list str) (video_ids : list str) : M (list str) :=
  match lines with
  | [] => ret video_ids
  | line :: rest =>
      let url := strip line in
      if nonempty url then
        match extract_video_id url with
        | Some video_id =>
            if nonempty video_id then scan_lines rest (video_ids ++ [video_id])
            else print (MsgSkipUrl url) ;; scan_lines rest video_ids
        | None => print (MsgSkipUrl url) ;; scan_lines rest video_ids
        end
      else scan_lines rest video_ids
  end.

(** Lines 186-194: the file-reading phase. *)
Definition read_links : M (list str) :=
  file <- ask OpenLinks open_links ;;
  video_ids <- scan_lines (fst file) [] ;;
  match snd file with
  | None => ret video_ids
  | Some e => raise e
  end.

(** Lines 216-219: the loop over the identifiers. *)
Fixpoint add_videos (youtube : Service) (playlist_id : str)
    (video_ids : list str) (added_count : nat) : M nat :=
  match video_ids with
  | [] => ret added_count
  | video_id :: rest =>
      added <- add_video_to_playlist youtube playlist_id video_id ;;
      add_videos youtube playlist_id rest
                 (if added : bool then S added_count else added_count)
  end.

(** Lines 208-222: what [main] does once it is authenticated. *)
Definition fill_playlist (youtube : Service) (video_ids : list str) : M unit :=
  playlist_id <- create_playlist youtube PLAYLIST_TITLE PLAYLIST_DESCRIPTION
                                 PLAYLIST_PRIVACY_STATUS ;;
  match playlist_id with
  | Some pid =>
      if nonempty pid then
        print MsgStartAdding ;;
        added_count <- add_videos youtube pid video_ids 0 ;;
        print (MsgFinished added_count (length video_ids)) ;;
        print (MsgViewPlaylist pid)
      else print MsgCreateFailed
  | None => print MsgCreateFailed
  end.

Definition main : M unit :=
  found <- ask (OsPathExists YT_LINKS_FILE) (os_path_exists YT_LINKS_FILE) ;;
  if negb found then
    print MsgLinksNotFound ;; print MsgLinksHelp
  else
    video_ids <- read_links ;;
    match video_ids with
    | [] => print MsgNoValidLinks
    | _ :: _ =>
        print (MsgFound (length video_ids)) ;;
        youtube <- get_authenticated_service ;;
        match youtube with
        | None => print MsgAuthFailed
        | Some yt => fill_playlist yt video_ids
        end
    end.

End Program.

(** ** Observations on a run *)

Definition trace_of {W A} (x : list Event * result A * W) : list Event :=
  fst (fst x).

Definition result_of {W A} (x : list Event * result A * W) : result A :=
  snd (fst x).

(** The run [x], after the events [t] have happened. *)
Definition after {W A} (t : list Event) (x : list Event * result A * W)
  : list Event * result A * W :=
  match x with (t', r, w) => (t ++ t', r, w) end.

Definition calls (t : list Event) : list Op :=
  flat_map (fun ev => match ev with Call op => [op] | Print _ => [] end) t.

Definition prints (t : list Event) : list Msg :=
  flat_map (fun ev => match ev with Print m => [m] | Call _ => [] end) t.

(** The calls that authenticate or reach the remote service. *)
Definition is_auth_or_api (op : Op) : bool :=
  match op with
  | OsPathExists YT_LINKS_FILE | OpenLinks => false
  | _ => true
  end.

Definition is_insertion (op : Op) : bool :=
  match op with PlaylistItemsInsert _ _ => true | _ => false end.

Definition is_refresh (op : Op) : bool :=
  match op with Refresh => true | _ => false end.

Definition is_browser_flow (op : Op) : bool :=
  match op with RunLocalServer => true | _ => false end.

Definition is_save (op : Op) : bool :=
  match op with SaveCredentials => true | _ => false end.

(** How often a kind of call occurs in a trace. *)
Definition count (kind : Op -> bool) (t : list Event) : nat :=
  List.length (filter kind (calls t)).

Definition is_skip_warning (m : Msg) : bool :=
  match m with MsgSkipUrl _ => true | _ => false end.

(** ** A scripted world

    A concrete world in which every outside call answers from a script; it
    serves to run the program on examples. *)

Record ScriptedCredentials : Type := {
  sc_valid : bool;
  sc_expired : bool;
  sc_refresh_token : option str
}.

Record Scripted : Type := {
  links_file : option (list str);                 (* None: no yt_links.txt *)
  credentials_file : option (result ScriptedCredentials);
                                                  (* None: no credentials.json *)
  client_secrets_present : bool;
  refresh_reply : result ScriptedCredentials;
  flow_reply : result ScriptedCredentials;
  create_reply : result dict;
  insert_replies : list (result unit)             (* one per insertion, in order *)
}.

Definition scripted_exists (p : Path) (w : Scripted) : bool :=
  match p with
  | YT_LINKS_FILE => match links_file w with Some _ => true | None => false end
  | CLIENT_SECRETS_FILE => client_secrets_present w
  | CREDENTIALS_FILE =>
      match credentials_file w with Some _ => true | None => false end
  end.

Definition scripted_open (w : Scripted) : list str * option exn :=
  match links_file w with
  | Some lines => (lines, None)
  | None => ([], Some (OtherException (lit "FileNotFoundError")))
  end.

Definition scripted_load (w : Scripted) : result ScriptedCredentials :=
  match credentials_file w with
  | Some r => r
  | None => Raise (OtherException (lit "FileNotFoundError"))
  end.

Definition scripted_insert (w : Scripted) : result unit * Scripted :=
  match insert_replies w with
  | [] => (Ret tt, w)
  | r :: rest =>
      (r, {| links_file := links_file w;
             credentials_file := credentials_file w;
             client_secrets_present := client_secrets_present w;
             refresh_reply := refresh_reply w;
             flow_reply := flow_reply w;
             create_reply := create_reply w;
             insert_replies := rest |})
  end.

Definition scripted : Runtime := {|
  World := Scripted;
  Credentials := ScriptedCredentials;
  Flow := unit;
  Service := unit;
  unicode_lower := fun _ c _ => [c];
  entered_title := [];
  entered_description := [];
  os_path_exists := fun p w => (scripted_exists p w, w);
  open_links := fun w => (scripted_open w, w);
  from_authorized_user_file := fun w => (scripted_load w, w);
  valid := fun c w => (sc_valid c, w);
  expired := fun c w => (sc_expired c, w);
  refresh_token := sc_refresh_token;
  refresh := fun _ w => (refresh_reply w, w);
  from_client_secrets_file := fun w => (Ret tt, w);
  run_local_server := fun _ w => (flow_reply w, w);
  save_credentials := fun _ w => (Ret tt, w);
  build := fun _ w => (Ret tt, w);
  playlists_insert := fun _ _ _ _ w => (create_reply w, w);
  playlist_items_insert := fun _ _ _ w => scripted_insert w
|}.

(** A world with a links file and nothing else; every reply succeeds. *)
Definition quiet (lines : option (list str)) : Scripted := {|
  links_file := lines;
  credentials_file := None;
  client_secrets_present := true;
  refresh_reply := Raise (OtherException (lit "RefreshError"));
  flow_reply := Ret {| sc_valid := true; sc_expired := false;
                       sc_refresh_token := Some (lit "r") |};
  create_reply := Ret [(lit "id", lit "PL1")];
  insert_replies := []
|}.

(** Variations of a scripted world. *)
Definition with_credentials (r : option (result ScriptedCredentials))
    (w : Scripted) : Scripted := {|
  links_file := links_file w;
  credentials_file := r;
  client_secrets_present := client_secrets_present w;
  refresh_reply := refresh_reply w;
  flow_reply := flow_reply w;
  create_reply := create_reply w;
  insert_replies := insert_replies w
|}.

Definition with_client_secrets (present : bool) (w : Scripted) : Scripted := {|
  links_file := links_file w;
  credentials_file := credentials_file w;
  client_secrets_present := present;
  refresh_reply := refresh_reply w;
  flow_reply := flow_reply w;
  create_reply := create_reply w;
  insert_replies := insert_replies w
|}.

Definition with_refresh (r : result ScriptedCredentials) (w : Scripted)
  : Scripted := {|
  links_file := links_file w;
  credentials_file := credentials_file w;
  client_secrets_present := client_secrets_present w;
  refresh_reply := r;
  flow_reply := flow_reply w;
  create_reply := create_reply w;
  insert_replies := insert_replies w
|}.

Definition with_flow (r : result ScriptedCredentials) (w : Scripted)
  : Scripted := {|
  links_file := links_file w;
  credentials_file := credentials_file w;
  client_secrets_present := client_secrets_present w;
  refresh_reply := refresh_reply w;
  flow_reply := r;
  create_reply := create_reply w;
  insert_replies := insert_replies w
|}.

Definition with_create (r : result dict) (w : Scripted) : Scripted := {|
  links_file := links_file w;
  credentials_file := credentials_file w;
  client_secrets_present := client_secrets_present w;
  refresh_reply := refresh_reply w;
  flow_reply := flow_reply w;
  create_reply := r;
  insert_replies := insert_replies w
|}.

Definition with_inserts (rs : list (result unit)) (w : Scripted) : Scripted := {|
  links_file := links_file w;
  credentials_file := credentials_file w;
  client_secrets_present := client_secrets_present w;
  refresh_reply := refresh_reply w;
  flow_reply := flow_reply w;
  create_reply := create_reply w;
  insert_replies := rs
|}.

(** Stored credentials that have expired and carry a refresh token. *)
Definition stale : ScriptedCredentials :=
  {| sc_valid := false; sc_expired := true; sc_refresh_token := Some (lit "r") |}.

(** Stored credentials that have expired and cannot be refreshed. *)
Definition spent : ScriptedCredentials :=
  {| sc_valid := false; sc_expired := true; sc_refresh_token := None |}.

Definition fresh : ScriptedCredentials :=
  {| sc_valid := true; sc_expired := false; sc_refresh_token := Some (lit "r") |}.

(* ================================================================== *)
(** * Specification vocabulary *)
(* ================================================================== *)

(** ** Link parser *)

(** A video identifier: eleven characters of the class. *)
Definition video_id_ok (id : str) : Prop :=
  List.length id = ID_LENGTH /\ forallb is_id_char id = true.

(** The pattern with alternatives [alts] matches [url] right after [pre],
    with [id] as its group: a marker, then the identifier. *)
Definition occurs (alts : list str) (url pre id : str) : Prop :=
  exists m suf, In m alts /\ url = pre ++ m ++ id ++ suf /\ video_id_ok id.

(** ... and no match starts further to the left. *)
Definition leftmost (alts : list str) (url pre id : str) : Prop :=
  occurs alts url pre id /\
  forall pre' id', occurs alts url pre' id' ->
                   List.length pre <= List.length pre'.

(** No alternative is a proper prefix of another one: at one position at
    most one alternative can match. *)
Definition unambiguous (alts : list str) : bool :=
  forallb (fun m => forallb (fun m' => implb (is_prefix m m') (str_eqb m m'))
                            alts) alts.

(** The four supported shapes of a link. *)
Definition WATCH_URL : str := lit "https://www.youtube.com/watch?v=".
Definition SHORT_LINK_URL : str := lit "https://youtu.be/".
Definition EMBED_URL : str := lit "https://www.youtube.com/embed/".
Definition SHORTS_URL : str := lit "https://www.youtube.com/shorts/".

(** [link_shape url id]: [url] has one of the four supported shapes and
    [id] is the identifier embedded in it; whatever follows the identifier
    is free. *)
Inductive link_shape : str -> str -> Prop :=
| watch_link id rest :
    video_id_ok id -> link_shape (WATCH_URL ++ id ++ rest) id
| short_link id rest :
    video_id_ok id -> link_shape (SHORT_LINK_URL ++ id ++ rest) id
| embed_link id rest :
    video_id_ok id -> link_shape (EMBED_URL ++ id ++ rest) id
| shorts_link id rest :
    video_id_ok id -> link_shape (SHORTS_URL ++ id ++ rest) id.

(** A malformed link: neither pattern matches anywhere in it. *)
Definition malformed (url : str) : Prop :=
  (forall pre id, ~ occurs watch_markers url pre id) /\
  (forall pre id, ~ occurs shorts_markers url pre id).

(** ** Reading the links file *)

(** What a line of the file parses to: nothing for a blank line. *)
Definition parsed (line : str) : option str :=
  if nonempty (strip line) then extract_video_id (strip line) else None.

(** A valid line parses to an identifier. *)
Definition is_valid_line (line : str) : bool :=
  match parsed line with Some _ => true | None => false end.

(** An invalid line is not blank and parses to nothing. *)
Definition is_invalid_line (line : str) : bool :=
  nonempty (strip line) && negb (is_valid_line line).

(** The identifiers of the valid lines, in the order of the file. *)
Definition collected (lines : list str) : list str :=
  flat_map (fun line => match parsed line with Some id => [id] | None => [] end)
           lines.

(** The trimmed text of the invalid lines, in the order of the file. *)
Definition skipped (lines : list str) : list str :=
  map strip (filter is_invalid_line lines).

Definition skip_warnings (t : list Event) : list Msg :=
  filter is_skip_warning (prints t).

(** The example input of the specification. *)
Definition example_links : list str :=
  [lit "https://youtu.be/dQw4w9WgXcQ"; lit "not-a-url";
   lit "https://www.youtube.com/shorts/abc12345678"].

(** ** Item insertion *)

(** The classes of a failed insertion. *)
Inductive FailureClass : Type := NotFound | Duplicate | ApiError.

(** The class a printed message stands for. *)
Definition class_of (m : Msg) : option FailureClass :=
  match m with
  | MsgNotFound _ => Some NotFound
  | MsgDuplicate _ => Some Duplicate
  | MsgAddHttpError _ _ _ => Some ApiError
  | _ => None
  end.

(** The class a run of the error handler reports: it prints one message and
    returns. *)
Definition class_of_run {W} (x : list Event * result bool * W)
  : option FailureClass :=
  match x with
  | ([Print m], Ret false, _) => class_of m
  | _ => None
  end.

(** The classification as the specification words it: status 404 is
    NotFound, status 400 with a body that contains "duplicate" is Duplicate,
    anything else is ApiError. *)
Definition claimed_class (status : Z) (body : str) : FailureClass :=
  if (status =? 404)%Z then NotFound
  else if (status =? 400)%Z && contains (lit "duplicate") body then Duplicate
  else ApiError.

(** The same with the test made on the lower-cased body. *)
Definition lowered_class (tbl : str -> char -> str -> str)
    (status : Z) (body : str) : FailureClass :=
  if (status =? 404)%Z then NotFound
  else if (status =? 400)%Z && contains (lit "duplicate") (lower tbl body)
       then Duplicate
  else ApiError.

(** A character that [lower] leaves alone whatever the table is: ASCII and
    not an upper-case letter. *)
Definition plain (c : char) : bool := (c <? 128)%N && negb (between 65 90 c).

(** An answer to an insertion that [add_video_to_playlist] turns into
    [True] or [False]: success, an [HttpError] that is a 404 or has a body
    that decodes, any other [Exception]. *)
Definition handled (r : result unit) : bool :=
  match r with
  | Ret _ => true
  | Raise (HttpError status content) =>
      (status =? 404)%Z
      || match utf8_decode content with Some _ => true | None => false end
  | Raise e => is_Exception e
  end.

Definition succeeded (r : result unit) : bool :=
  match r with Ret _ => true | Raise _ => false end.

Definition is_creation (op : Op) : bool :=
  match op with PlaylistsInsert _ _ _ => true | _ => false end.

Definition is_finished (m : Msg) : bool :=
  match m with MsgFinished _ _ => true | _ => false end.

Section Replies.

Context {R : Runtime}.

(** The answers the service gives when the identifiers are inserted one
    after the other, starting in world [w]. *)
Fixpoint replies (youtube : Service) (playlist_id : str)
    (video_ids : list str) (w : World) : list (result unit) :=
  match video_ids with
  | [] => []
  | video_id :: rest =>
      let (r, w') := playlist_items_insert youtube playlist_id video_id w in
      r :: replies youtube playlist_id rest w'
  end.

End Replies.

(** A run in which the second of three insertions is answered by an error
    whose body is not UTF-8: the first video is already in the playlist, the
    third one would be accepted. *)
Definition three_links : list str :=
  [lit "https://youtu.be/dQw4w9WgXcQ";
   lit "https://www.youtube.com/shorts/abc12345678";
   lit "https://www.youtube.com/watch?v=9bZkp7q19f0"].

Definition garbled_reply_world : Scripted :=
  with_inserts
    [Raise (HttpError 400 (blit "duplicate"));
     Raise (HttpError 500 [xff]);
     Ret tt]
    (quiet (Some three_links)).

(** A run in which the creation of the playlist is answered by an error
    whose body is not UTF-8. *)
Definition garbled_creation_world : Scripted :=
  with_create (Raise (HttpError 500 [xff])) (quiet (Some example_links)).

(** What is printed about a failed creation: the HTTP error with its status
    and body, and the failure message of [main]. *)
Definition is_creation_report (m : Msg) : bool :=
  match m with
  | MsgCreateHttpError _ _ | MsgCreateFailed => true
  | _ => false
  end.

(* ================================================================== *)
(** * Further vocabulary *)
(* ================================================================== *)

(** ** Trimmed text *)

(** Text without white space at either end; the empty text is trimmed. *)
Definition starts_clean (s : str) : bool :=
  match s with [] => true | c :: _ => negb (is_space c) end.

Definition is_trimmed (s : str) : bool :=
  starts_clean s && starts_clean (rev s).

(** Markers the white-space argument applies to: not empty, and free of
    white space. *)
Definition solid (alts : list str) : bool :=
  forallb (fun m => nonempty m && forallb (fun c => negb (is_space c)) m) alts.

(** The scripted world, with what the user typed at the two prompts. *)
Definition typed (title description : str) : Runtime := {|
  World := Scripted;
  Credentials := ScriptedCredentials;
  Flow := unit;
  Service := unit;
  unicode_lower := fun _ c _ => [c];
  entered_title := title;
  entered_description := description;
  os_path_exists := fun p w => (scripted_exists p w, w);
  open_links := fun w => (scripted_open w, w);
  from_authorized_user_file := fun w => (scripted_load w, w);
  valid := fun c w => (sc_valid c, w);
  expired := fun c w => (sc_expired c, w);
  refresh_token := sc_refresh_token;
  refresh := fun _ w => (refresh_reply w, w);
  from_client_secrets_file := fun w => (Ret tt, w);
  run_local_server := fun _ w => (flow_reply w, w);
  save_credentials := fun _ w => (Ret tt, w);
  build := fun _ w => (Ret tt, w);
  playlists_insert := fun _ _ _ _ w => (create_reply w, w);
  playlist_items_insert := fun _ _ _ w => scripted_insert w
|}.

(** ** More observations *)

Definition is_blank (line : str) : bool := negb (nonempty (strip line)).

Definition is_build (op : Op) : bool :=
  match op with Build => true | _ => false end.


Definition is_ascii_byte (b : byte) : bool := (Byte.to_N b <? 128)%N.

(** ** The script around [main]

    Lines 224-256.  The logger is configured before the [try]: opening the
    log file may raise, and nothing catches that.  Inside the [try] the
    script announces itself, runs [main] and reports success; an [Exception]
    is logged and reported on the error stream; the handlers are closed in
    the [finally]. *)

Inductive ScriptEvent : Type :=
| OpenLogFile                 (* logging.FileHandler(LOG_FILE_NAME, mode='a') *)
| PrintStarting
| InMain (ev : Event)
| PrintCompleted
| LogUnexpected (e : exn)     (* logging.error(..., exc_info=True) *)
| PrintScriptError            (* print(..., file=sys.stderr) *)
| CloseHandlers.

Section TopLevel.

Context {R : Runtime}.

(** The answer of the file system when the log file is opened for
    appending. *)
Variable open_log_file : World -> result unit * World.

Definition script (w : World) : list ScriptEvent * result unit * World :=
  match open_log_file w with
  | (Raise e, w0) => ([OpenLogFile], Raise e, w0)
  | (Ret _, w0) =>
      match main w0 with
      | (t, Ret _, w1) =>
          (OpenLogFile :: PrintStarting :: map InMain t
             ++ [PrintCompleted; CloseHandlers], Ret tt, w1)
      | (t, Raise e, w1) =>
          if is_Exception e then
            (OpenLogFile :: PrintStarting :: map InMain t
               ++ [LogUnexpected e; PrintScriptError; CloseHandlers],
             Ret tt, w1)
          else
            (OpenLogFile :: PrintStarting :: map InMain t ++ [CloseHandlers],
             Raise e, w1)
      end
  end.

End TopLevel.

(* ================================================================== *)
(** * Part II: properties *)
(* ================================================================== *)

(** ** Link parser *)

Example extract_short_link :
  extract_video_id (lit "https://youtu.be/dQw4w9WgXcQ")
  = Some (lit "dQw4w9WgXcQ").
Proof. reflexivity. Qed.

Example extract_shorts :
  extract_video_id (lit "https://www.youtube.com/shorts/abc12345678")
  = Some (lit "abc12345678").
Proof. reflexivity. Qed.

Example extract_not_a_url : extract_video_id (lit "not-a-url") = None.
Proof. reflexivity. Qed.

Lemma str_eqb_eq a b : str_eqb a b = true <-> a = b.
Proof.
  revert b; induction a as [|x a IH]; intros [|y b]; simpl; split; try congruence; try discriminate.
  - rewrite andb_true_iff, N.eqb_eq, IH. intros [-> ->]; reflexivity.
  - intros [= -> ->]. rewrite N.eqb_refl. simpl. apply IH. reflexivity.
Qed.

Lemma strip_prefix_spec p s t : strip_prefix p s = Some t <-> s = p ++ t.
Proof.
  revert s; induction p as [|a p IH]; intros s; simpl.
  - split; congruence.
  - destruct s as [|b s]; [split; discriminate|].
    destruct (N.eqb_spec a b) as [->|ne].
    + rewrite IH. split; congruence.
    + split; [discriminate|]. intros [= -> _]. contradiction.
Qed.

Lemma is_prefix_spec p s : is_prefix p s = true <-> exists t, s = p ++ t.
Proof.
  revert s; induction p as [|a p IH]; intros s; simpl.
  - split; eauto.
  - destruct s as [|b s].
    + split; [discriminate|]. intros [t [=]].
    + rewrite andb_true_iff, N.eqb_eq, IH. split.
      * intros [-> [t ->]]. eauto.
      * intros [t [= -> ->]]. eauto.
Qed.

Lemma take_id_spec n s id :
  take_id n s = Some id <->
  exists suf, s = id ++ suf /\ List.length id = n /\ forallb is_id_char id = true.
Proof.
  revert s id; induction n as [|n IH]; intros s id; simpl.
  - split.
    + intros [= <-]. exists s. auto.
    + intros (suf & _ & L & _). destruct id; [reflexivity|discriminate].
  - destruct s as [|c s].
    + split; [discriminate|]. intros (suf & E & L & _).
      destruct id; [discriminate|discriminate].
    + destruct (is_id_char c) eqn:Hc.
      * destruct (take_id n s) as [r|] eqn:Hr.
        -- apply IH in Hr. destruct Hr as (suf & -> & L & F). split.
           ++ intros [= <-]. exists suf. simpl. rewrite Hc, L. auto.
           ++ intros (suf' & E & L' & F'). destruct id as [|d id]; [discriminate|].
              simpl in *. injection E as -> E. injection L' as L'.
              apply andb_true_iff in F' as [_ F'].
              assert (take_id n (r ++ suf) = Some id) as T by (apply IH; eauto).
              assert (take_id n (r ++ suf) = Some r) as T' by (apply IH; eauto).
              rewrite T in T'. injection T' as ->. reflexivity.
        -- split; [discriminate|]. intros (suf' & E & L' & F').
           destruct id as [|d id]; [discriminate|]. simpl in *.
           injection E as -> E. injection L' as L'. apply andb_true_iff in F' as [_ F'].
           assert (take_id n s = Some id) as T by (apply IH; eauto).
           rewrite T in Hr. discriminate.
      * split; [discriminate|]. intros (suf' & E & L' & F').
        destruct id as [|d id]; [discriminate|]. simpl in *.
        injection E as -> E. apply andb_true_iff in F' as [F' _]. congruence.
Qed.

Lemma take_id_app id rest :
  video_id_ok id -> take_id ID_LENGTH (id ++ rest) = Some id.
Proof. intros [L F]. apply take_id_spec. eauto. Qed.

Lemma match_here_sound alts s id :
  match_here alts s = Some id ->
  exists m suf, In m alts /\ s = m ++ id ++ suf /\ video_id_ok id.
Proof.
  induction alts as [|a alts IH]; cbn [match_here]; [discriminate|].
  destruct (strip_prefix a s) as [t|] eqn:P.
  - destruct (take_id ID_LENGTH t) as [r|] eqn:T.
    + intros [= ->]. apply strip_prefix_spec in P. apply take_id_spec in T.
      destruct T as (suf & -> & L & F). exists a, suf.
      split; [left; reflexivity | split; [exact P | split; assumption]].
    + intros H. destruct (IH H) as (m & suf & I & E & K). exists m, suf.
      split; [right; exact I | auto].
  - intros H. destruct (IH H) as (m & suf & I & E & K). exists m, suf.
    split; [right; exact I | auto].
Qed.

Lemma match_here_none alts s :
  match_here alts s = None <->
  forall m id suf, In m alts -> video_id_ok id -> s <> m ++ id ++ suf.
Proof.
  induction alts as [|a alts IH]; cbn [match_here].
  - split; [intros _ m id suf []|reflexivity].
  - destruct (strip_prefix a s) as [t|] eqn:P.
    + destruct (take_id ID_LENGTH t) as [r|] eqn:T.
      * split; [discriminate|]. intros H. exfalso.
        apply strip_prefix_spec in P. apply take_id_spec in T.
        destruct T as (suf & -> & L & F).
        apply (H a r suf); [left; reflexivity|split; auto|exact P].
      * rewrite IH. split.
        -- intros H m id suf [<-|I] K E; [|apply (H m id suf); auto].
           apply strip_prefix_spec in E. rewrite E in P. injection P as <-.
           rewrite take_id_app in T by exact K. discriminate.
        -- intros H m id suf I. apply H. right; exact I.
    + rewrite IH. split.
      * intros H m id suf [<-|I] K E; [|apply (H m id suf); auto].
        apply strip_prefix_spec in E. rewrite E in P. discriminate.
      * intros H m id suf I. apply H. right; exact I.
Qed.

Lemma unambiguous_spec alts :
  unambiguous alts = true ->
  forall m m' t t', In m alts -> In m' alts -> m ++ t = m' ++ t' -> m = m'.
Proof.
  unfold unambiguous. rewrite forallb_forall. intros U m m' t t' I I' E.
  assert (forall a b x y, a ++ x = b ++ y ->
            is_prefix a b = true \/ is_prefix b a = true) as P.
  { clear. induction a as [|c a IH]; intros [|d b] x y E; simpl; auto.
    injection E as -> E. rewrite N.eqb_refl. simpl. eapply IH; eauto. }
  destruct (P _ _ _ _ E) as [H|H].
  - specialize (U m I). rewrite forallb_forall in U. specialize (U m' I').
    rewrite H in U. simpl in U. apply str_eqb_eq. exact U.
  - specialize (U m' I'). rewrite forallb_forall in U. specialize (U m I).
    rewrite H in U. simpl in U. symmetry. apply str_eqb_eq. exact U.
Qed.

Lemma app_inv_length (A : Type) (a b x y : list A) :
  a ++ x = b ++ y -> List.length a = List.length b -> a = b /\ x = y.
Proof.
  revert b; induction a as [|c a IH]; intros [|d b]; simpl; try discriminate; auto.
  intros [= -> E] [= L]. destruct (IH _ E L) as [-> ->]. auto.
Qed.

Lemma match_here_complete alts m id suf :
  unambiguous alts = true -> In m alts -> video_id_ok id ->
  match_here alts (m ++ id ++ suf) = Some id.
Proof.
  intros U I K.
  destruct (match_here alts (m ++ id ++ suf)) as [id'|] eqn:H.
  - destruct (match_here_sound _ _ H) as (m' & suf' & I' & E & K').
    pose proof (unambiguous_spec _ U _ _ _ _ I I' E) as <-.
    apply app_inv_head in E.
    destruct K as [L _], K' as [L' _].
    destruct (app_inv_length _ _ _ _ E) as [-> _]; [congruence|reflexivity].
  - exfalso. rewrite match_here_none in H. apply (H m id suf I K). reflexivity.
Qed.

Lemma re_search_unfold alts s :
  re_search alts s =
  match match_here alts s with
  | Some id => Some id
  | None => match s with [] => None | _ :: s' => re_search alts s' end
  end.
Proof. destruct s; reflexivity. Qed.

Lemma occurs_here alts s id :
  occurs alts s [] id <->
  exists m suf, In m alts /\ s = m ++ id ++ suf /\ video_id_ok id.
Proof. reflexivity. Qed.

Lemma occurs_cons alts c s pre id :
  occurs alts (c :: s) (c :: pre) id <-> occurs alts s pre id.
Proof.
  split; intros (m & suf & I & E & K); exists m, suf; repeat split; try apply K; auto.
  - simpl in E. congruence.
  - simpl. congruence.
Qed.

Lemma occurs_inv alts s pre id :
  occurs alts s pre id ->
  match pre with
  | [] => True
  | c :: pre' => exists s', s = c :: s' /\ occurs alts s' pre' id
  end.
Proof.
  destruct pre as [|c pre']; [trivial|].
  intros (m & suf & I & E & K). simpl in E.
  exists (pre' ++ m ++ id ++ suf). split; [exact E|].
  exists m, suf. auto.
Qed.

Lemma match_here_occurs alts s :
  match_here alts s = None <-> forall id, ~ occurs alts s [] id.
Proof.
  rewrite match_here_none. split.
  - intros H id (m & suf & I & E & K). exact (H m id suf I K E).
  - intros H m id suf I K E. apply (H id). exists m, suf. auto.
Qed.

Lemma re_search_none alts s :
  re_search alts s = None <-> forall pre id, ~ occurs alts s pre id.
Proof.
  induction s as [|c s IH]; rewrite re_search_unfold.
  - destruct (match_here alts []) as [id|] eqn:H.
    + split; [discriminate|]. intros N. exfalso.
      destruct (match_here_sound _ _ H) as (m & suf & I & E & K).
      apply (N [] id). exists m, suf. auto.
    + split; [|reflexivity]. intros _ pre id O.
      destruct pre as [|d pre].
      * rewrite match_here_occurs in H. exact (H id O).
      * apply occurs_inv in O. destruct O as (s' & [=] & _).
  - destruct (match_here alts (c :: s)) as [id|] eqn:H.
    + split; [discriminate|]. intros N. exfalso.
      destruct (match_here_sound _ _ H) as (m & suf & I & E & K).
      apply (N [] id). exists m, suf. auto.
    + rewrite IH. rewrite match_here_occurs in H. split.
      * intros N pre id O. destruct pre as [|d pre]; [exact (H id O)|].
        apply occurs_inv in O. destruct O as (s' & [= <- <-] & O).
        exact (N pre id O).
      * intros N pre id O. apply (N (c :: pre) id). apply occurs_cons. exact O.
Qed.

Lemma re_search_sound alts s id :
  re_search alts s = Some id -> exists pre, leftmost alts s pre id.
Proof.
  induction s as [|c s IH]; rewrite re_search_unfold.
  - destruct (match_here alts []) as [id'|] eqn:H; [|discriminate].
    intros [= ->]. exists []. split; [|simpl; lia].
    destruct (match_here_sound _ _ H) as (m & suf & X). exists m, suf. exact X.
  - destruct (match_here alts (c :: s)) as [id'|] eqn:H.
    + intros [= ->]. exists []. split; [|simpl; lia].
      destruct (match_here_sound _ _ H) as (m & suf & X). exists m, suf. exact X.
    + intros S. destruct (IH S) as (pre & O & L). exists (c :: pre). split.
      * apply occurs_cons. exact O.
      * intros pre' id' O'. rewrite match_here_occurs in H.
        destruct pre' as [|d pre']; [destruct (H id' O')|].
        apply occurs_inv in O'. destruct O' as (s' & [= <- <-] & O').
        simpl. apply le_n_S. exact (L _ _ O').
Qed.

Lemma re_search_complete alts s pre id :
  unambiguous alts = true -> leftmost alts s pre id ->
  re_search alts s = Some id.
Proof.
  intros U. revert pre. induction s as [|c s IH]; intros pre [O L];
    rewrite re_search_unfold.
  - destruct pre as [|d pre].
    + destruct O as (m & suf & I & E & K). simpl in E. rewrite E.
      rewrite (@match_here_complete alts m id suf U I K). reflexivity.
    + apply occurs_inv in O. destruct O as (s' & [=] & _).
  - destruct pre as [|d pre].
    + destruct O as (m & suf & I & E & K). simpl in E. rewrite E.
      rewrite (@match_here_complete alts m id suf U I K). reflexivity.
    + destruct (match_here alts (c :: s)) as [id'|] eqn:H.
      * exfalso. destruct (match_here_sound _ _ H) as (m & suf & X).
        assert (occurs alts (c :: s) [] id') as O' by (exists m, suf; exact X).
        specialize (L _ _ O'). simpl in L. lia.
      * pose proof (occurs_inv O) as (s' & [= <- <-] & O1).
        apply (IH pre). split; [exact O1|].
        intros pre' id' O'. apply (occurs_cons alts c) in O'.
        specialize (L _ _ O'). simpl in L. lia.
Qed.

Lemma re_search_skip alts c s :
  match_here alts (c :: s) = None -> re_search alts (c :: s) = re_search alts s.
Proof. intros H. rewrite re_search_unfold, H. reflexivity. Qed.

Lemma re_search_hit alts s id :
  match_here alts s = Some id -> re_search alts s = Some id.
Proof. intros H. rewrite re_search_unfold, H. reflexivity. Qed.

(** Spell out a literal prefix of the subject, then walk over the positions
    at which the literal alone decides that nothing matches. *)
Ltac spell base :=
  let b := eval vm_compute in base in
  change base with b; cbn [app].

Ltac walk := repeat (rewrite re_search_skip by (vm_compute; reflexivity)).

Lemma match_here_marker alts m id rest :
  unambiguous alts = true -> In m alts -> video_id_ok id ->
  match_here alts (m ++ id ++ rest) = Some id.
Proof. apply match_here_complete. Qed.

Lemma watch_shape id rest :
  video_id_ok id -> extract_video_id (WATCH_URL ++ id ++ rest) = Some id.
Proof.
  intros K. unfold extract_video_id. spell WATCH_URL. walk.
  rewrite (@re_search_hit watch_markers _ id); [reflexivity|].
  apply (@match_here_complete watch_markers (lit "watch?v=") id rest);
    [reflexivity | simpl; tauto | exact K].
Qed.

Lemma short_link_shape id rest :
  video_id_ok id -> extract_video_id (SHORT_LINK_URL ++ id ++ rest) = Some id.
Proof.
  intros K. unfold extract_video_id. spell SHORT_LINK_URL. walk.
  rewrite (@re_search_hit watch_markers _ id); [reflexivity|].
  apply (@match_here_complete watch_markers (lit "youtu.be/") id rest);
    [reflexivity | simpl; tauto | exact K].
Qed.

Lemma embed_shape id rest :
  video_id_ok id -> extract_video_id (EMBED_URL ++ id ++ rest) = Some id.
Proof.
  intros K. unfold extract_video_id. spell EMBED_URL. walk.
  rewrite (@re_search_hit watch_markers _ id); [reflexivity|].
  apply (@match_here_complete watch_markers (lit "embed/") id rest);
    [reflexivity | simpl; tauto | exact K].
Qed.

Lemma shorts_search id rest :
  video_id_ok id ->
  re_search shorts_markers (SHORTS_URL ++ id ++ rest) = Some id.
Proof.
  intros K. spell SHORTS_URL. walk. apply re_search_hit.
  apply (@match_here_complete shorts_markers (lit "shorts/") id rest);
    [reflexivity | simpl; tauto | exact K].
Qed.

Lemma strip_prefix_id_run p id rest :
  forallb is_id_char id = true ->
  existsb (fun c => negb (is_id_char c)) p = true ->
  List.length p <= List.length id ->
  strip_prefix p (id ++ rest) = None.
Proof.
  revert id; induction p as [|a p IH]; intros id F X L; [discriminate|].
  destruct id as [|c id]; [simpl in L; lia|]. simpl in *.
  apply andb_true_iff in F as [Fc F].
  destruct (N.eqb_spec a c) as [->|ne]; [|reflexivity].
  rewrite Fc in X. simpl in X. apply IH; auto. lia.
Qed.

Lemma id_run_no_match alts s :
  forallb is_id_char s = true ->
  forallb (existsb (fun c => negb (is_id_char c))) alts = true ->
  re_search alts s = None.
Proof.
  intros F A. apply re_search_none. intros pre id (m & suf & I & E & K).
  rewrite forallb_forall in A. specialize (A m I).
  rewrite E in F. rewrite !forallb_app in F.
  apply andb_true_iff in F as [_ F]. apply andb_true_iff in F as [F _].
  apply existsb_exists in A as (c & Ic & Nc).
  rewrite forallb_forall in F. rewrite (F c Ic) in Nc. discriminate.
Qed.

Lemma shorts_base_no_watch id rest :
  video_id_ok id ->
  re_search watch_markers (SHORTS_URL ++ id ++ rest)
  = re_search watch_markers (id ++ rest).
Proof.
  intros [L F]. spell SHORTS_URL. walk.
  apply re_search_skip. apply match_here_none.
  intros m id' suf I K' E.
  assert (strip_prefix (lit "videos/") (id ++ rest) = None) as S.
  { apply strip_prefix_id_run; [exact F|reflexivity|rewrite L; vm_compute; lia]. }
  simpl in I.
  repeat (destruct I as [<-|I]; [try discriminate E|]); [|destruct I].
  injection E as E.
  assert (strip_prefix (lit "videos/") (id ++ rest) = Some (id' ++ suf)) as S'
    by (apply strip_prefix_spec; exact E).
  rewrite S' in S. discriminate.
Qed.

Lemma shorts_shape id rest :
  video_id_ok id ->
  re_search watch_markers (id ++ rest) = None ->
  extract_video_id (SHORTS_URL ++ id ++ rest) = Some id.
Proof.
  intros K H. unfold extract_video_id.
  rewrite (shorts_base_no_watch rest K), H. rewrite (shorts_search rest K).
  reflexivity.
Qed.

Lemma shorts_plain id :
  video_id_ok id -> extract_video_id (SHORTS_URL ++ id) = Some id.
Proof.
  intros K. rewrite <- (app_nil_r id) at 1. apply shorts_shape; [exact K|].
  rewrite app_nil_r. apply id_run_no_match; [apply K|reflexivity].
Qed.

Lemma extract_video_id_id_ok url id :
  extract_video_id url = Some id -> video_id_ok id.
Proof.
  unfold extract_video_id.
  destruct (re_search watch_markers url) as [i|] eqn:W.
  - intros [= <-]. destruct (re_search_sound _ _ W) as (pre & (m & suf & _ & _ & K) & _).
    exact K.
  - destruct (re_search shorts_markers url) as [i|] eqn:S; [|discriminate].
    intros [= <-]. destruct (re_search_sound _ _ S) as (pre & (m & suf & _ & _ & K) & _).
    exact K.
Qed.

(** A shorts link: the first pattern is tried first, on the whole link, and
    can only match from the identifier on. *)
Lemma shorts_link_result id rest :
  video_id_ok id ->
  extract_video_id (SHORTS_URL ++ id ++ rest)
  = match re_search watch_markers (id ++ rest) with
    | Some other => Some other
    | None => Some id
    end.
Proof.
  intros K. unfold extract_video_id. rewrite (shorts_base_no_watch rest K).
  destruct (re_search watch_markers (id ++ rest)); [reflexivity|].
  rewrite (shorts_search rest K). reflexivity.
Qed.

Lemma extract_video_id_none url :
  malformed url <-> extract_video_id url = None.
Proof.
  unfold malformed, extract_video_id. rewrite <- !re_search_none.
  destruct (re_search watch_markers url), (re_search shorts_markers url);
    split; try intros [? ?]; try discriminate; auto.
Qed.

(** C1, as amended.  For every link of the watch, short-link or embed
    shape [extract_video_id] returns the identifier embedded in it, whatever
    follows.  For a link of the shorts shape it returns the embedded
    identifier unless the text from the identifier on holds a match of the
    first pattern, which is tried first: then it returns that match.  The
    patterns are applied in order and the left-most match of a pattern is
    returned; a link in which neither pattern matches gives [None], and only
    such a link does; whatever is returned is an identifier of eleven
    characters of the class. *)
Theorem extract_video_id_correct :
  (forall id rest,
      video_id_ok id ->
      extract_video_id (WATCH_URL ++ id ++ rest) = Some id
      /\ extract_video_id (SHORT_LINK_URL ++ id ++ rest) = Some id
      /\ extract_video_id (EMBED_URL ++ id ++ rest) = Some id
      /\ extract_video_id (SHORTS_URL ++ id ++ rest)
         = match re_search watch_markers (id ++ rest) with
           | Some other => Some other
           | None => Some id
           end
      /\ ((forall pre i, ~ occurs watch_markers (id ++ rest) pre i) ->
          extract_video_id (SHORTS_URL ++ id ++ rest) = Some id)
      /\ extract_video_id (SHORTS_URL ++ id) = Some id)
  /\ (forall url pre id,
        leftmost watch_markers url pre id -> extract_video_id url = Some id)
  /\ (forall url pre id,
        (forall p i, ~ occurs watch_markers url p i) ->
        leftmost shorts_markers url pre id ->
        extract_video_id url = Some id)
  /\ (forall url, malformed url <-> extract_video_id url = None)
  /\ (forall url id, extract_video_id url = Some id -> video_id_ok id).
Proof.
  split.
  { intros id rest K.
    split; [apply watch_shape, K|].
    split; [apply short_link_shape, K|].
    split; [apply embed_shape, K|].
    split; [apply shorts_link_result, K|].
    split; [|apply shorts_plain, K].
    intros N. apply shorts_shape; [exact K|]. apply re_search_none. exact N. }
  split.
  { intros url pre id L. unfold extract_video_id.
    rewrite (@re_search_complete watch_markers url pre id); auto. }
  split.
  { intros url pre id N L. unfold extract_video_id.
    apply re_search_none in N. rewrite N.
    rewrite (@re_search_complete shorts_markers url pre id); auto. }
  split; [exact extract_video_id_none | exact extract_video_id_id_ok].
Qed.

Lemma extract_video_id_correct_witness :
  extract_video_id (lit "https://www.youtube.com/watch?v=dQw4w9WgXcQ&t=42s")
  = Some (lit "dQw4w9WgXcQ")
  /\ extract_video_id (lit "https://www.youtube.com/shorts/abc12345678?feature=share")
     = Some (lit "abc12345678")
  /\ extract_video_id (lit "not-a-url") = None.
Proof.
  destruct extract_video_id_correct as (Shape & _ & _ & Mal & _).
  split; [|split].
  - destruct (Shape (lit "dQw4w9WgXcQ") (lit "&t=42s")) as (Watch & _).
    + split; reflexivity.
    + exact Watch.
  - destruct (Shape (lit "abc12345678") (lit "?feature=share"))
      as (_ & _ & _ & _ & Shorts & _).
    + split; reflexivity.
    + apply Shorts. apply re_search_none. reflexivity.
  - apply Mal. split; apply re_search_none; reflexivity.
Defined.

(** C1 as stated fails on a shorts link that carries a [v=] query: the link
    has the shorts shape with [abc12345678] embedded in it, but the first
    pattern matches [v=dQw4w9WgXcQ] and is tried first, so that identifier
    is returned. *)
Lemma shorts_link_with_watch_query :
  link_shape (lit "https://www.youtube.com/shorts/abc12345678?v=dQw4w9WgXcQ")
             (lit "abc12345678")
  /\ extract_video_id
       (lit "https://www.youtube.com/shorts/abc12345678?v=dQw4w9WgXcQ")
     = Some (lit "dQw4w9WgXcQ")
  /\ extract_video_id
       (lit "https://www.youtube.com/shorts/abc12345678?v=dQw4w9WgXcQ")
     <> Some (lit "abc12345678").
Proof.
  split; [|split].
  - apply (@shorts_link (lit "abc12345678") (lit "?v=dQw4w9WgXcQ")).
    split; reflexivity.
  - reflexivity.
  - discriminate.
Qed.

(** ** Running the script *)

Section Runs.

Context {R : Runtime}.

Lemma extract_truthy url id :
  extract_video_id url = Some id -> nonempty id = true.
Proof.
  intros H. destruct (extract_video_id_id_ok _ H) as [L _].
  destruct id; [discriminate L|reflexivity].
Qed.

Lemma scan_lines_run lines : forall video_ids w,
  scan_lines lines video_ids w
  = (map (fun url => Print (MsgSkipUrl url)) (skipped lines),
     Ret (video_ids ++ collected lines), w).
Proof.
  induction lines as [|line lines IH]; intros acc w.
  - simpl. rewrite app_nil_r. reflexivity.
  - cbn [scan_lines]. unfold skipped, collected, is_invalid_line, is_valid_line, parsed.
    cbn [filter flat_map map].
    destruct (nonempty (strip line)) eqn:B.
    + destruct (extract_video_id (strip line)) as [id|] eqn:X.
      * rewrite (extract_truthy _ X). rewrite IH. cbn [andb negb].
        rewrite <- app_assoc. reflexivity.
      * unfold bind, print. rewrite IH. reflexivity.
    + rewrite IH. reflexivity.
Qed.

Lemma collected_length lines :
  List.length (collected lines) = List.length (filter is_valid_line lines).
Proof.
  unfold collected, is_valid_line.
  induction lines as [|line lines IH]; [reflexivity|]. cbn [flat_map filter].
  destruct (parsed line); cbn; rewrite IH; reflexivity.
Qed.

Lemma skip_warnings_map urls :
  filter is_skip_warning (prints (map (fun url => Print (MsgSkipUrl url)) urls))
  = map MsgSkipUrl urls.
Proof. induction urls as [|u urls IH]; [reflexivity|]. cbn. rewrite <- IH. reflexivity. Qed.

Lemma read_links_run w lines w' :
  open_links w = ((lines, None), w') ->
  read_links w
  = (Call OpenLinks :: map (fun url => Print (MsgSkipUrl url)) (skipped lines),
     Ret (collected lines), w').
Proof.
  intros H. unfold read_links, bind, ask. rewrite H. cbn [fst snd].
  rewrite scan_lines_run. cbn. rewrite app_nil_r. reflexivity.
Qed.

(** C2.  When the links file holds [lines], the file-reading phase returns
    the identifiers of the valid lines and prints one skip warning per
    invalid line (blank lines count in neither group): as many identifiers
    as valid lines, as many warnings as invalid lines.  On the example input
    it returns [dQw4w9WgXcQ] and [abc12345678] and prints one warning. *)
Theorem read_links_counts w lines w' :
  open_links w = ((lines, None), w') ->
  exists video_ids,
    result_of (read_links w) = Ret video_ids
    /\ video_ids = collected lines
    /\ skip_warnings (trace_of (read_links w)) = map MsgSkipUrl (skipped lines)
    /\ List.length video_ids = List.length (filter is_valid_line lines)
    /\ List.length (skip_warnings (trace_of (read_links w)))
       = List.length (filter is_invalid_line lines)
    /\ (lines = example_links ->
        video_ids = [lit "dQw4w9WgXcQ"; lit "abc12345678"]
        /\ skip_warnings (trace_of (read_links w))
           = [MsgSkipUrl (lit "not-a-url")]).
Proof.
  intros H. exists (collected lines). rewrite (read_links_run _ H).
  unfold result_of, trace_of, skip_warnings. cbn [fst snd].
  change (prints (Call OpenLinks :: ?t)) with (prints t).
  rewrite skip_warnings_map.
  repeat split.
  - apply collected_length.
  - unfold skipped. rewrite !length_map. reflexivity.
  - subst lines. reflexivity.
  - subst lines. reflexivity.
Qed.

Lemma collected_nil lines :
  (forall line, In line lines -> is_valid_line line = false) ->
  collected lines = [].
Proof.
  unfold collected, is_valid_line.
  induction lines as [|line lines IH]; intros H; [reflexivity|].
  cbn [flat_map]. pose proof (H line (or_introl eq_refl)) as V.
  destruct (parsed line); [discriminate|]. apply IH.
  intros l I. apply H. right. exact I.
Qed.

Lemma calls_app t1 t2 : calls (t1 ++ t2) = calls t1 ++ calls t2.
Proof. apply flat_map_app. Qed.

Lemma prints_app t1 t2 : prints (t1 ++ t2) = prints t1 ++ prints t2.
Proof. apply flat_map_app. Qed.

Lemma calls_of_prints (msgs : list Msg) : calls (map Print msgs) = [].
Proof. induction msgs; [reflexivity|exact IHmsgs]. Qed.

Lemma calls_of_skip_prints urls :
  calls (map (fun url => Print (MsgSkipUrl url)) urls) = [].
Proof. induction urls; [reflexivity|exact IHurls]. Qed.

(** C4.  When the links file exists and none of its lines is valid (it is
    empty, all blank or all unparsable), [main] prints the skip warnings and
    the no-links message and returns: no call that authenticates, creates a
    playlist or inserts an item is made. *)
Theorem main_no_input w w1 lines w2 :
  os_path_exists YT_LINKS_FILE w = (true, w1) ->
  open_links w1 = ((lines, None), w2) ->
  (forall line, In line lines -> is_valid_line line = false) ->
  main w
  = ([Call (OsPathExists YT_LINKS_FILE); Call OpenLinks]
       ++ map (fun url => Print (MsgSkipUrl url)) (skipped lines)
       ++ [Print MsgNoValidLinks],
     Ret tt, w2)
  /\ calls (trace_of (main w)) = [OsPathExists YT_LINKS_FILE; OpenLinks]
  /\ filter is_auth_or_api (calls (trace_of (main w))) = [].
Proof.
  intros E O V.
  assert (main w
          = ([Call (OsPathExists YT_LINKS_FILE); Call OpenLinks]
               ++ map (fun url => Print (MsgSkipUrl url)) (skipped lines)
               ++ [Print MsgNoValidLinks], Ret tt, w2)) as Run.
  { unfold main, bind at 1, ask. rewrite E. cbn [negb].
    unfold bind at 1. rewrite (read_links_run _ O), (collected_nil _ V).
    reflexivity. }
  split; [exact Run|]. rewrite Run. unfold trace_of. cbn [fst].
  rewrite !calls_app, calls_of_skip_prints. split; reflexivity.
Qed.

(** C10.  When the links file does not exist, [main] prints the two lines of
    the error and returns at once: the file is not opened, nothing is
    authenticated, created or inserted, and the no-links message of the
    other early exit is not printed. *)
Theorem main_links_file_missing w w1 :
  os_path_exists YT_LINKS_FILE w = (false, w1) ->
  main w
  = ([Call (OsPathExists YT_LINKS_FILE); Print MsgLinksNotFound;
      Print MsgLinksHelp], Ret tt, w1)
  /\ calls (trace_of (main w)) = [OsPathExists YT_LINKS_FILE]
  /\ filter is_auth_or_api (calls (trace_of (main w))) = []
  /\ ~ In MsgNoValidLinks (prints (trace_of (main w))).
Proof.
  intros E.
  assert (main w
          = ([Call (OsPathExists YT_LINKS_FILE); Print MsgLinksNotFound;
              Print MsgLinksHelp], Ret tt, w1)) as Run.
  { unfold main, bind at 1, ask. rewrite E. reflexivity. }
  split; [exact Run|]. rewrite Run. repeat split.
  cbn. intros [H|[H|[]]]; discriminate H.
Qed.

End Runs.

Lemma read_links_counts_witness :
  result_of (@read_links scripted (quiet (Some example_links)))
  = Ret [lit "dQw4w9WgXcQ"; lit "abc12345678"]
  /\ List.length
       (skip_warnings (trace_of (@read_links scripted (quiet (Some example_links)))))
     = 1.
Proof.
  destruct (@read_links_counts scripted (quiet (Some example_links))
              example_links (quiet (Some example_links)) eq_refl)
    as (ids & Res & _ & _ & _ & Len & Ex).
  destruct (Ex eq_refl) as [-> _].
  split; [exact Res | exact Len].
Defined.

Lemma main_no_input_witness :
  filter is_auth_or_api
    (calls (trace_of (@main scripted
                        (quiet (Some [lit "not-a-url"; lit "   "; []])))))
  = [].
Proof.
  apply (@main_no_input scripted
           (quiet (Some [lit "not-a-url"; lit "   "; []]))
           (quiet (Some [lit "not-a-url"; lit "   "; []]))
           [lit "not-a-url"; lit "   "; []]
           (quiet (Some [lit "not-a-url"; lit "   "; []]))).
  - reflexivity.
  - reflexivity.
  - intros line [<-|[<-|[<-|[]]]]; reflexivity.
Defined.

Lemma main_links_file_missing_witness :
  calls (trace_of (@main scripted (quiet None))) = [OsPathExists YT_LINKS_FILE].
Proof.
  apply (@main_links_file_missing scripted (quiet None) (quiet None)).
  reflexivity.
Defined.

(** ** Authenticator *)

(** Symbolic execution: ask the world for the answer to the next call. *)
Ltac world_step :=
  match goal with
  | |- context [os_path_exists ?p ?w] =>
      is_var w; destruct (os_path_exists p w) as [[|] ?]
  | |- context [from_authorized_user_file ?w] =>
      is_var w; destruct (from_authorized_user_file w) as [[?|?] ?]
  | |- context [valid ?c ?w] =>
      is_var w; destruct (valid c w) as [[|] ?]
  | |- context [expired ?c ?w] =>
      is_var w; destruct (expired c w) as [[|] ?]
  | |- context [refresh ?c ?w] =>
      is_var w; destruct (refresh c w) as [[?|?] ?]
  | |- context [from_client_secrets_file ?w] =>
      is_var w; destruct (from_client_secrets_file w) as [[?|?] ?]
  | |- context [run_local_server ?f ?w] =>
      is_var w; destruct (run_local_server f w) as [[?|?] ?]
  | |- context [save_credentials ?c ?w] =>
      is_var w; destruct (save_credentials c w) as [[?|?] ?]
  | |- context [build ?c ?w] =>
      is_var w; destruct (build c w) as [[?|?] ?]
  | |- context [is_Exception ?e] => is_var e; destruct (is_Exception e)
  | |- context [truthy (refresh_token ?c)] =>
      destruct (truthy (refresh_token c))
  end; cbn.

Ltac unfold_script :=
  unfold get_authenticated_service, authorize, reauthenticate, finish,
    interactive_flow, try_refresh, load_credentials, build_service,
    bind, ret, raise, print, ask, call, peek, try_except.

Section Authenticator.

Context {R : Runtime}.

Lemma after_nil A (x : list Event * result A * World) : after [] x = x.
Proof. destruct x as [[t r] w]. reflexivity. Qed.

Lemma after_after A (t1 t2 : list Event) (x : list Event * result A * World) :
  after t1 (after t2 x) = after (t1 ++ t2) x.
Proof. destruct x as [[t r] w]. cbn. rewrite app_assoc. reflexivity. Qed.

Lemma bind_run_ret A B (m : M A) (k : A -> M B) w t a w1 :
  m w = (t, Ret a, w1) -> bind m k w = after t (k a w1).
Proof. intros H. unfold bind. rewrite H. reflexivity. Qed.

Lemma bind_run_raise A B (m : M A) (k : A -> M B) w t e w1 :
  m w = (t, Raise e, w1) -> bind m k w = (t, Raise e, w1).
Proof. intros H. unfold bind. rewrite H. reflexivity. Qed.

Lemma bind_bind A B C (m : M A) (k : A -> M B) (h : B -> M C) w :
  bind (bind m k) h w = bind m (fun a => bind (k a) h) w.
Proof.
  unfold bind. destruct (m w) as [[t1 [a|e]] w1]; [|reflexivity].
  destruct (k a w1) as [[t2 [b|e]] w2]; [|reflexivity].
  destruct (h b w2) as [[t3 r] w3]. rewrite app_assoc. reflexivity.
Qed.

Lemma load_credentials_absent w w1 :
  os_path_exists CREDENTIALS_FILE w = (false, w1) ->
  load_credentials w = ([Call (OsPathExists CREDENTIALS_FILE)], Ret None, w1).
Proof. intros E. unfold load_credentials, bind, ask. rewrite E. reflexivity. Qed.

Lemma load_credentials_malformed w w1 e w2 :
  os_path_exists CREDENTIALS_FILE w = (true, w1) ->
  from_authorized_user_file w1 = (Raise e, w2) ->
  is_Exception e = true ->
  load_credentials w
  = ([Call (OsPathExists CREDENTIALS_FILE); Call FromAuthorizedUserFile;
      Print (MsgErrorLoadingCredentials e)], Ret None, w2).
Proof.
  intros E L X. unfold load_credentials, bind at 1, ask. rewrite E.
  unfold try_except, bind at 1, call. rewrite L, X. reflexivity.
Qed.

Lemma load_credentials_loaded w w1 c w2 :
  os_path_exists CREDENTIALS_FILE w = (true, w1) ->
  from_authorized_user_file w1 = (Ret c, w2) ->
  load_credentials w
  = ([Call (OsPathExists CREDENTIALS_FILE); Call FromAuthorizedUserFile],
     Ret (Some c), w2).
Proof.
  intros E L. unfold load_credentials, bind at 1, ask. rewrite E.
  unfold try_except, bind at 1, call. rewrite L. reflexivity.
Qed.

Lemma authorize_none w : authorize None w = reauthenticate w.
Proof.
  unfold authorize, reauthenticate.
  rewrite (@bind_run_ret _ _ (ret None) _ w [] None w eq_refl), after_nil.
  reflexivity.
Qed.

Lemma trace_bind A B (m : M A) (k : A -> M B) w :
  exists t, trace_of (bind m k w) = trace_of (m w) ++ t.
Proof.
  unfold bind, trace_of. destruct (m w) as [[t1 [a|e]] w1].
  - destruct (k a w1) as [[t2 r] w2]. cbn. eauto.
  - cbn. exists []. rewrite app_nil_r. reflexivity.
Qed.

Lemma trace_bind_ret A B (m : M A) (k : A -> M B) w t a w1 :
  m w = (t, Ret a, w1) ->
  trace_of (bind m k w) = t ++ trace_of (k a w1).
Proof.
  intros H. rewrite (@bind_run_ret A B m k w t a w1 H).
  destruct (k a w1) as [[t2 r] w2]. reflexivity.
Qed.

(** The flow opens with its announcement and the look-up of the client
    secrets. *)
Lemma reauthenticate_opening w :
  exists t,
    trace_of (reauthenticate w)
    = Print MsgInitiatingFlow :: Call (OsPathExists CLIENT_SECRETS_FILE) :: t.
Proof.
  unfold reauthenticate, interactive_flow.
  rewrite bind_bind.
  rewrite (@trace_bind_ret _ _ (print MsgInitiatingFlow) _ w
             [Print MsgInitiatingFlow] tt w eq_refl).
  rewrite bind_bind.
  destruct (os_path_exists CLIENT_SECRETS_FILE w) as [found w1] eqn:E.
  rewrite (@trace_bind_ret _ _ (ask (OsPathExists CLIENT_SECRETS_FILE)
                                    (os_path_exists CLIENT_SECRETS_FILE)) _ w
             [Call (OsPathExists CLIENT_SECRETS_FILE)] found w1).
  - cbn. eauto.
  - unfold ask. rewrite E. reflexivity.
Qed.

Lemma reauthenticate_config_missing w w1 :
  os_path_exists CLIENT_SECRETS_FILE w = (false, w1) ->
  reauthenticate w
  = ([Print MsgInitiatingFlow; Call (OsPathExists CLIENT_SECRETS_FILE);
      Print MsgSecretsNotFound; Print MsgSecretsDownload;
      Print MsgSecretsRename], Ret None, w1).
Proof.
  intros E. unfold reauthenticate, interactive_flow, bind, print, ask.
  rewrite E. reflexivity.
Qed.

Lemma reauthenticate_flow_aborted w w1 flow w2 e w3 :
  os_path_exists CLIENT_SECRETS_FILE w = (true, w1) ->
  from_client_secrets_file w1 = (Ret flow, w2) ->
  run_local_server flow w2 = (Raise e, w3) ->
  is_Exception e = true ->
  reauthenticate w
  = ([Print MsgInitiatingFlow; Call (OsPathExists CLIENT_SECRETS_FILE);
      Call FromClientSecretsFile; Call RunLocalServer;
      Print (MsgFlowError e); Print MsgFlowHint], Ret None, w3).
Proof.
  intros E F L X.
  unfold reauthenticate, interactive_flow, bind, print, ask, call, try_except.
  rewrite E. cbn [negb]. rewrite F, L, X. reflexivity.
Qed.

Lemma reauthenticate_flow_done w w1 flow w2 c w3 :
  os_path_exists CLIENT_SECRETS_FILE w = (true, w1) ->
  from_client_secrets_file w1 = (Ret flow, w2) ->
  run_local_server flow w2 = (Ret c, w3) ->
  reauthenticate w
  = after [Print MsgInitiatingFlow; Call (OsPathExists CLIENT_SECRETS_FILE);
           Call FromClientSecretsFile; Call RunLocalServer]
          (finish (Some c) w3).
Proof.
  intros E F L. unfold reauthenticate.
  apply bind_run_ret.
  unfold interactive_flow, bind, print, ask, call, try_except.
  rewrite E. cbn [negb]. rewrite F, L. reflexivity.
Qed.

(** Saving is the first thing that happens to new credentials. *)
Lemma finish_saves c w :
  exists t, trace_of (finish (Some c) w) = Call SaveCredentials :: t.
Proof.
  unfold finish, trace_of, bind, call.
  destruct (save_credentials c w) as [[u|e] w1]; cbn; [|eauto].
  destruct (build_service c w1) as [[t r] w2]. cbn. eauto.
Qed.

Lemma authorize_unrefreshable c w is_expired w1 w2 :
  expired c w = (is_expired, w1) ->
  is_expired && truthy (refresh_token c) = false ->
  valid c w1 = (false, w2) ->
  authorize (Some c) w = reauthenticate w2.
Proof.
  intros E T V. unfold authorize.
  rewrite (@bind_run_ret _ _ (try_refresh c) _ w [] (Some c) w1).
  - rewrite after_nil, bind_bind.
    rewrite (@bind_run_ret _ _ (peek (valid c)) _ w1 [] false w2).
    + rewrite after_nil. reflexivity.
    + unfold peek. rewrite V. reflexivity.
  - unfold try_refresh, bind, peek. rewrite E, T. reflexivity.
Qed.

Lemma authorize_refreshed c w w1 c' w2 w3 :
  expired c w = (true, w1) ->
  truthy (refresh_token c) = true ->
  refresh c w1 = (Ret c', w2) ->
  valid c' w2 = (true, w3) ->
  authorize (Some c) w
  = after [Print MsgRefreshing; Call Refresh] (finish (Some c') w3).
Proof.
  intros E T F V. unfold authorize.
  rewrite (@bind_run_ret _ _ (try_refresh c) _ w
             [Print MsgRefreshing; Call Refresh] (Some c') w2).
  - rewrite (@bind_run_ret _ _ _ _ w2 [] (Some c') w3).
    + rewrite after_nil. reflexivity.
    + unfold bind, peek. rewrite V. reflexivity.
  - unfold try_refresh, bind, peek, print, try_except, call.
    rewrite E, T. cbn [andb]. rewrite F. reflexivity.
Qed.

Lemma authorize_refresh_failed c w w1 e w2 :
  expired c w = (true, w1) ->
  truthy (refresh_token c) = true ->
  refresh c w1 = (Raise e, w2) ->
  is_Exception e = true ->
  authorize (Some c) w
  = after [Print MsgRefreshing; Call Refresh; Print (MsgErrorRefreshing e)]
          (reauthenticate w2).
Proof.
  intros E T F X. unfold authorize.
  rewrite (@bind_run_ret _ _ (try_refresh c) _ w
             [Print MsgRefreshing; Call Refresh; Print (MsgErrorRefreshing e)]
             None w2).
  - reflexivity.
  - unfold try_refresh, bind, peek, print, try_except, call.
    rewrite E, T. cbn [andb]. rewrite F, X. reflexivity.
Qed.

Lemma get_authenticated_service_none w t w1 :
  load_credentials w = (t, Ret None, w1) ->
  get_authenticated_service w = after t (reauthenticate w1).
Proof.
  intros L. unfold get_authenticated_service.
  rewrite (@bind_run_ret _ _ _ _ _ _ _ _ L), authorize_none. reflexivity.
Qed.

Lemma get_authenticated_service_valid w t c w1 w2 :
  load_credentials w = (t, Ret (Some c), w1) ->
  valid c w1 = (true, w2) ->
  get_authenticated_service w = after t (build_service c w2).
Proof.
  intros L V. unfold get_authenticated_service.
  rewrite (@bind_run_ret _ _ _ _ _ _ _ _ L).
  rewrite (@bind_run_ret _ _ (peek (valid c)) _ w1 [] true w2).
  - rewrite after_nil. reflexivity.
  - unfold peek. rewrite V. reflexivity.
Qed.

Lemma get_authenticated_service_invalid w t c w1 w2 :
  load_credentials w = (t, Ret (Some c), w1) ->
  valid c w1 = (false, w2) ->
  get_authenticated_service w = after t (authorize (Some c) w2).
Proof.
  intros L V. unfold get_authenticated_service.
  rewrite (@bind_run_ret _ _ _ _ _ _ _ _ L).
  rewrite (@bind_run_ret _ _ (peek (valid c)) _ w1 [] false w2).
  - rewrite after_nil. reflexivity.
  - unfold peek. rewrite V. reflexivity.
Qed.

(** One refresh and one browser flow at most, whatever the world answers. *)
Lemma authenticator_no_retry w :
  count is_refresh (trace_of (get_authenticated_service w)) <= 1
  /\ count is_browser_flow (trace_of (get_authenticated_service w)) <= 1.
Proof.
  unfold count, trace_of. unfold_script. cbn. repeat world_step; lia.
Qed.

Lemma authorize_no_retry credentials w :
  count is_refresh (trace_of (authorize credentials w)) <= 1
  /\ count is_browser_flow (trace_of (authorize credentials w)) <= 1.
Proof.
  unfold count, trace_of. unfold_script.
  destruct credentials as [c|]; cbn; repeat world_step; lia.
Qed.

(** A service obtained through [authorize] comes with saved credentials. *)
Lemma authorize_saves credentials w youtube :
  result_of (authorize credentials w) = Ret (Some youtube) ->
  count is_save (trace_of (authorize credentials w)) = 1.
Proof.
  unfold count, trace_of, result_of. unfold_script.
  destruct credentials as [c|]; cbn; repeat world_step;
    intros H; try discriminate H; reflexivity.
Qed.

Lemma reauthenticate_no_refresh w :
  count is_refresh (trace_of (reauthenticate w)) = 0.
Proof.
  unfold count, trace_of. unfold_script. cbn. repeat world_step; reflexivity.
Qed.

Lemma reauthenticate_flow_once w w1 flow w2 :
  os_path_exists CLIENT_SECRETS_FILE w = (true, w1) ->
  from_client_secrets_file w1 = (Ret flow, w2) ->
  count is_browser_flow (trace_of (reauthenticate w)) = 1.
Proof.
  intros E F. unfold count, trace_of. unfold_script. rewrite E. cbn.
  rewrite F. cbn. repeat world_step; reflexivity.
Qed.

(** C9.  Loading the stored credentials gives [None] when the credentials
    file is absent and when reading it raises (malformed contents); in the
    second case the error is printed.  In both cases the authenticator goes
    on with the interactive flow, which opens with its announcement and the
    look-up of the client secrets. *)
Theorem credential_load_recovers w :
  (forall w1,
      os_path_exists CREDENTIALS_FILE w = (false, w1) ->
      load_credentials w
      = ([Call (OsPathExists CREDENTIALS_FILE)], Ret None, w1)
      /\ get_authenticated_service w
         = after [Call (OsPathExists CREDENTIALS_FILE)] (reauthenticate w1))
  /\ (forall w1 e w2,
        os_path_exists CREDENTIALS_FILE w = (true, w1) ->
        from_authorized_user_file w1 = (Raise e, w2) ->
        is_Exception e = true ->
        load_credentials w
        = ([Call (OsPathExists CREDENTIALS_FILE); Call FromAuthorizedUserFile;
            Print (MsgErrorLoadingCredentials e)], Ret None, w2)
        /\ get_authenticated_service w
           = after [Call (OsPathExists CREDENTIALS_FILE);
                    Call FromAuthorizedUserFile;
                    Print (MsgErrorLoadingCredentials e)]
                   (reauthenticate w2))
  /\ (forall w', exists t,
        trace_of (reauthenticate w')
        = Print MsgInitiatingFlow
            :: Call (OsPathExists CLIENT_SECRETS_FILE) :: t).
Proof.
  split; [|split].
  - intros w1 E. pose proof (load_credentials_absent _ E) as L.
    split; [exact L|]. apply get_authenticated_service_none. exact L.
  - intros w1 e w2 E F X. pose proof (load_credentials_malformed _ E F X) as L.
    split; [exact L|]. apply get_authenticated_service_none. exact L.
  - apply reauthenticate_opening.
Qed.

(** The steps of the authenticator, one by one: what [authorize] (lines
    61-95) and [reauthenticate] (lines 69-95) do on each answer of the
    world. *)
Lemma authorize_cases :
  (forall w, authorize None w = reauthenticate w)
  /\ (forall c w is_expired w1 w2,
        expired c w = (is_expired, w1) ->
        is_expired && truthy (refresh_token c) = false ->
        valid c w1 = (false, w2) ->
        authorize (Some c) w = reauthenticate w2)
  /\ (forall w w1,
        os_path_exists CLIENT_SECRETS_FILE w = (false, w1) ->
        reauthenticate w
        = ([Print MsgInitiatingFlow; Call (OsPathExists CLIENT_SECRETS_FILE);
            Print MsgSecretsNotFound; Print MsgSecretsDownload;
            Print MsgSecretsRename], Ret None, w1))
  /\ (forall w w1 flow w2 e w3,
        os_path_exists CLIENT_SECRETS_FILE w = (true, w1) ->
        from_client_secrets_file w1 = (Ret flow, w2) ->
        run_local_server flow w2 = (Raise e, w3) ->
        is_Exception e = true ->
        reauthenticate w
        = ([Print MsgInitiatingFlow; Call (OsPathExists CLIENT_SECRETS_FILE);
            Call FromClientSecretsFile; Call RunLocalServer;
            Print (MsgFlowError e); Print MsgFlowHint], Ret None, w3))
  /\ (forall w w1 flow w2 c w3,
        os_path_exists CLIENT_SECRETS_FILE w = (true, w1) ->
        from_client_secrets_file w1 = (Ret flow, w2) ->
        run_local_server flow w2 = (Ret c, w3) ->
        reauthenticate w
        = after [Print MsgInitiatingFlow;
                 Call (OsPathExists CLIENT_SECRETS_FILE);
                 Call FromClientSecretsFile; Call RunLocalServer]
                (finish (Some c) w3)
        /\ exists t, trace_of (finish (Some c) w3) = Call SaveCredentials :: t)
  /\ (forall c w w1 c' w2 w3,
        expired c w = (true, w1) ->
        truthy (refresh_token c) = true ->
        refresh c w1 = (Ret c', w2) ->
        valid c' w2 = (true, w3) ->
        authorize (Some c) w
        = after [Print MsgRefreshing; Call Refresh] (finish (Some c') w3)
        /\ exists t, trace_of (finish (Some c') w3) = Call SaveCredentials :: t)
  /\ (forall c w w1 e w2,
        expired c w = (true, w1) ->
        truthy (refresh_token c) = true ->
        refresh c w1 = (Raise e, w2) ->
        is_Exception e = true ->
        authorize (Some c) w
        = after [Print MsgRefreshing; Call Refresh;
                 Print (MsgErrorRefreshing e)] (reauthenticate w2)
        /\ count is_refresh (trace_of (authorize (Some c) w)) = 1
        /\ count is_browser_flow (trace_of (authorize (Some c) w)) <= 1
        /\ (forall w3 flow w4,
              os_path_exists CLIENT_SECRETS_FILE w2 = (true, w3) ->
              from_client_secrets_file w3 = (Ret flow, w4) ->
              count is_browser_flow (trace_of (authorize (Some c) w)) = 1))
  /\ (forall w,
        count is_refresh (trace_of (get_authenticated_service w)) <= 1
        /\ count is_browser_flow (trace_of (get_authenticated_service w)) <= 1)
  /\ (forall credentials w youtube,
        result_of (authorize credentials w) = Ret (Some youtube) ->
        count is_save (trace_of (authorize credentials w)) = 1).
Proof.
  split; [exact authorize_none|].
  split; [exact authorize_unrefreshable|].
  split; [exact reauthenticate_config_missing|].
  split; [exact reauthenticate_flow_aborted|].
  split.
  { intros w w1 flow w2 c w3 E F L.
    split; [exact (reauthenticate_flow_done _ E F L) | apply finish_saves]. }
  split.
  { intros c w w1 c' w2 w3 E T F V.
    split; [exact (authorize_refreshed _ _ E T F V) | apply finish_saves]. }
  split.
  { intros c w w1 e w2 E T F X.
    pose proof (authorize_refresh_failed _ _ E T F X) as Run.
    split; [exact Run|]. split; [|split].
    - rewrite Run. pose proof (reauthenticate_no_refresh w2) as N.
      unfold count, trace_of in *.
      destruct (reauthenticate w2) as [[t r] w']. cbn in *. exact (f_equal S N).
    - apply authorize_no_retry.
    - intros w3 flow w4 E' F'. rewrite Run.
      pose proof (reauthenticate_flow_once _ E' F') as N.
      unfold count, trace_of in *.
      destruct (reauthenticate w2) as [[t r] w']. cbn in *. exact N. }
  split; [exact authenticator_no_retry | exact authorize_saves].
Qed.

Lemma finish_run c w w1 youtube w2 :
  save_credentials c w = (Ret tt, w1) ->
  build c w1 = (Ret youtube, w2) ->
  finish (Some c) w
  = ([Call SaveCredentials; Print MsgCredentialsSaved; Call Build],
     Ret (Some youtube), w2).
Proof.
  intros S B. unfold finish, build_service, bind, call, print.
  rewrite S, B. reflexivity.
Qed.

Lemma get_authenticated_service_unrefreshable w w1 c w2 w3 is_expired w4 w5 :
  os_path_exists CREDENTIALS_FILE w = (true, w1) ->
  from_authorized_user_file w1 = (Ret c, w2) ->
  valid c w2 = (false, w3) ->
  expired c w3 = (is_expired, w4) ->
  is_expired && truthy (refresh_token c) = false ->
  valid c w4 = (false, w5) ->
  get_authenticated_service w
  = after [Call (OsPathExists CREDENTIALS_FILE); Call FromAuthorizedUserFile]
          (reauthenticate w5).
Proof.
  intros E L V X T V'.
  rewrite (get_authenticated_service_invalid _ (load_credentials_loaded _ E L) V).
  rewrite (authorize_unrefreshable _ _ X T V'). reflexivity.
Qed.

Lemma get_authenticated_service_refreshed w w1 c w2 w3 w4 c' w5 w6 :
  os_path_exists CREDENTIALS_FILE w = (true, w1) ->
  from_authorized_user_file w1 = (Ret c, w2) ->
  valid c w2 = (false, w3) ->
  expired c w3 = (true, w4) ->
  truthy (refresh_token c) = true ->
  refresh c w4 = (Ret c', w5) ->
  valid c' w5 = (true, w6) ->
  get_authenticated_service w
  = after [Call (OsPathExists CREDENTIALS_FILE); Call FromAuthorizedUserFile;
           Print MsgRefreshing; Call Refresh]
          (finish (Some c') w6).
Proof.
  intros E L V X T F V'.
  rewrite (get_authenticated_service_invalid _ (load_credentials_loaded _ E L) V).
  rewrite (authorize_refreshed _ _ X T F V'), after_after. reflexivity.
Qed.

Lemma get_authenticated_service_refresh_failed w w1 c w2 w3 w4 e w5 :
  os_path_exists CREDENTIALS_FILE w = (true, w1) ->
  from_authorized_user_file w1 = (Ret c, w2) ->
  valid c w2 = (false, w3) ->
  expired c w3 = (true, w4) ->
  truthy (refresh_token c) = true ->
  refresh c w4 = (Raise e, w5) ->
  is_Exception e = true ->
  get_authenticated_service w
  = after [Call (OsPathExists CREDENTIALS_FILE); Call FromAuthorizedUserFile;
           Print MsgRefreshing; Call Refresh; Print (MsgErrorRefreshing e)]
          (reauthenticate w5).
Proof.
  intros E L V X T F Ex.
  rewrite (get_authenticated_service_invalid _ (load_credentials_loaded _ E L) V).
  rewrite (authorize_refresh_failed _ _ X T F Ex), after_after. reflexivity.
Qed.

(** A service that comes out of a refresh or a browser flow comes with one
    save. *)
Lemma get_authenticated_service_saves w youtube :
  result_of (get_authenticated_service w) = Ret (Some youtube) ->
  1 <= count is_refresh (trace_of (get_authenticated_service w))
       + count is_browser_flow (trace_of (get_authenticated_service w)) ->
  count is_save (trace_of (get_authenticated_service w)) = 1.
Proof.
  unfold count, trace_of, result_of. unfold_script. cbn.
  repeat world_step; intros H N; try discriminate H; try reflexivity;
    cbn in N; lia.
Qed.

Lemma count_after_run A kind t (x : list Event * result A * World) :
  count kind (trace_of (after t x))
  = List.length (filter kind (calls t)) + count kind (trace_of x).
Proof.
  destruct x as [[t' r] w]. unfold count, trace_of. cbn [after fst].
  rewrite calls_app, filter_app, length_app. reflexivity.
Qed.

(** C7.  The authenticator, [get_authenticated_service].

    Without a credentials file the interactive flow is entered at once: the
    function returns [None] after its instructions when the client secrets
    are absent, [None] after its error message when the browser flow raises,
    and on success it saves the credentials and builds the service.  Loaded
    credentials that are invalid and cannot be refreshed lead to the same
    flow.  Expired credentials with a refresh token are refreshed first:
    after a successful refresh the credentials are saved and the service is
    built without any flow; after a failed refresh the error is printed and
    the flow is entered, once.  No run refreshes twice or runs the browser
    flow twice, and a service obtained through a refresh or a flow comes
    with exactly one save. *)
Theorem authenticator_flow w :
  (* no credentials file: the flow, and its three ends *)
  (forall w1 w2,
      os_path_exists CREDENTIALS_FILE w = (false, w1) ->
      os_path_exists CLIENT_SECRETS_FILE w1 = (false, w2) ->
      get_authenticated_service w
      = ([Call (OsPathExists CREDENTIALS_FILE); Print MsgInitiatingFlow;
          Call (OsPathExists CLIENT_SECRETS_FILE); Print MsgSecretsNotFound;
          Print MsgSecretsDownload; Print MsgSecretsRename], Ret None, w2))
  /\ (forall w1 w2 flow w3 e w4,
        os_path_exists CREDENTIALS_FILE w = (false, w1) ->
        os_path_exists CLIENT_SECRETS_FILE w1 = (true, w2) ->
        from_client_secrets_file w2 = (Ret flow, w3) ->
        run_local_server flow w3 = (Raise e, w4) ->
        is_Exception e = true ->
        get_authenticated_service w
        = ([Call (OsPathExists CREDENTIALS_FILE); Print MsgInitiatingFlow;
            Call (OsPathExists CLIENT_SECRETS_FILE);
            Call FromClientSecretsFile; Call RunLocalServer;
            Print (MsgFlowError e); Print MsgFlowHint], Ret None, w4))
  /\ (forall w1 w2 flow w3 c w4 w5 youtube w6,
        os_path_exists CREDENTIALS_FILE w = (false, w1) ->
        os_path_exists CLIENT_SECRETS_FILE w1 = (true, w2) ->
        from_client_secrets_file w2 = (Ret flow, w3) ->
        run_local_server flow w3 = (Ret c, w4) ->
        save_credentials c w4 = (Ret tt, w5) ->
        build c w5 = (Ret youtube, w6) ->
        get_authenticated_service w
        = ([Call (OsPathExists CREDENTIALS_FILE); Print MsgInitiatingFlow;
            Call (OsPathExists CLIENT_SECRETS_FILE);
            Call FromClientSecretsFile; Call RunLocalServer;
            Call SaveCredentials; Print MsgCredentialsSaved; Call Build],
           Ret (Some youtube), w6))
  (* loaded, invalid, not refreshable: the same flow *)
  /\ (forall w1 c w2 w3 is_expired w4 w5,
        os_path_exists CREDENTIALS_FILE w = (true, w1) ->
        from_authorized_user_file w1 = (Ret c, w2) ->
        valid c w2 = (false, w3) ->
        expired c w3 = (is_expired, w4) ->
        is_expired && truthy (refresh_token c) = false ->
        valid c w4 = (false, w5) ->
        get_authenticated_service w
        = after [Call (OsPathExists CREDENTIALS_FILE);
                 Call FromAuthorizedUserFile] (reauthenticate w5)
        /\ count is_refresh (trace_of (get_authenticated_service w)) = 0
        /\ (forall w6,
              os_path_exists CLIENT_SECRETS_FILE w5 = (false, w6) ->
              get_authenticated_service w
              = ([Call (OsPathExists CREDENTIALS_FILE);
                  Call FromAuthorizedUserFile; Print MsgInitiatingFlow;
                  Call (OsPathExists CLIENT_SECRETS_FILE);
                  Print MsgSecretsNotFound; Print MsgSecretsDownload;
                  Print MsgSecretsRename], Ret None, w6))
        /\ (forall w6 flow w7,
              os_path_exists CLIENT_SECRETS_FILE w5 = (true, w6) ->
              from_client_secrets_file w6 = (Ret flow, w7) ->
              count is_browser_flow (trace_of (get_authenticated_service w))
              = 1))
  (* expired with a refresh token: the refresh comes first *)
  /\ (forall w1 c w2 w3 w4 c' w5 w6 w7 youtube w8,
        os_path_exists CREDENTIALS_FILE w = (true, w1) ->
        from_authorized_user_file w1 = (Ret c, w2) ->
        valid c w2 = (false, w3) ->
        expired c w3 = (true, w4) ->
        truthy (refresh_token c) = true ->
        refresh c w4 = (Ret c', w5) ->
        valid c' w5 = (true, w6) ->
        save_credentials c' w6 = (Ret tt, w7) ->
        build c' w7 = (Ret youtube, w8) ->
        get_authenticated_service w
        = ([Call (OsPathExists CREDENTIALS_FILE); Call FromAuthorizedUserFile;
            Print MsgRefreshing; Call Refresh; Call SaveCredentials;
            Print MsgCredentialsSaved; Call Build], Ret (Some youtube), w8))
  /\ (forall w1 c w2 w3 w4 e w5,
        os_path_exists CREDENTIALS_FILE w = (true, w1) ->
        from_authorized_user_file w1 = (Ret c, w2) ->
        valid c w2 = (false, w3) ->
        expired c w3 = (true, w4) ->
        truthy (refresh_token c) = true ->
        refresh c w4 = (Raise e, w5) ->
        is_Exception e = true ->
        get_authenticated_service w
        = after [Call (OsPathExists CREDENTIALS_FILE);
                 Call FromAuthorizedUserFile; Print MsgRefreshing;
                 Call Refresh; Print (MsgErrorRefreshing e)]
                (reauthenticate w5)
        /\ count is_refresh (trace_of (get_authenticated_service w)) = 1
        /\ (forall w6,
              os_path_exists CLIENT_SECRETS_FILE w5 = (false, w6) ->
              get_authenticated_service w
              = ([Call (OsPathExists CREDENTIALS_FILE);
                  Call FromAuthorizedUserFile; Print MsgRefreshing;
                  Call Refresh; Print (MsgErrorRefreshing e);
                  Print MsgInitiatingFlow;
                  Call (OsPathExists CLIENT_SECRETS_FILE);
                  Print MsgSecretsNotFound; Print MsgSecretsDownload;
                  Print MsgSecretsRename], Ret None, w6))
        /\ (forall w6 flow w7 c' w8 w9 youtube w10,
              os_path_exists CLIENT_SECRETS_FILE w5 = (true, w6) ->
              from_client_secrets_file w6 = (Ret flow, w7) ->
              run_local_server flow w7 = (Ret c', w8) ->
              save_credentials c' w8 = (Ret tt, w9) ->
              build c' w9 = (Ret youtube, w10) ->
              get_authenticated_service w
              = ([Call (OsPathExists CREDENTIALS_FILE);
                  Call FromAuthorizedUserFile; Print MsgRefreshing;
                  Call Refresh; Print (MsgErrorRefreshing e);
                  Print MsgInitiatingFlow;
                  Call (OsPathExists CLIENT_SECRETS_FILE);
                  Call FromClientSecretsFile; Call RunLocalServer;
                  Call SaveCredentials; Print MsgCredentialsSaved;
                  Call Build], Ret (Some youtube), w10))
        /\ (forall w6 flow w7,
              os_path_exists CLIENT_SECRETS_FILE w5 = (true, w6) ->
              from_client_secrets_file w6 = (Ret flow, w7) ->
              count is_browser_flow (trace_of (get_authenticated_service w))
              = 1))
  (* no retries, and the save *)
  /\ count is_refresh (trace_of (get_authenticated_service w)) <= 1
  /\ count is_browser_flow (trace_of (get_authenticated_service w)) <= 1
  /\ (forall youtube,
        result_of (get_authenticated_service w) = Ret (Some youtube) ->
        1 <= count is_refresh (trace_of (get_authenticated_service w))
             + count is_browser_flow (trace_of (get_authenticated_service w)) ->
        count is_save (trace_of (get_authenticated_service w)) = 1).
Proof.
  split.
  { intros w1 w2 E S.
    rewrite (get_authenticated_service_none _ (load_credentials_absent _ E)).
    rewrite (reauthenticate_config_missing _ S). reflexivity. }
  split.
  { intros w1 w2 flow w3 e w4 E S F L X.
    rewrite (get_authenticated_service_none _ (load_credentials_absent _ E)).
    rewrite (reauthenticate_flow_aborted _ S F L X). reflexivity. }
  split.
  { intros w1 w2 flow w3 c w4 w5 yt w6 E S F L Sv B.
    rewrite (get_authenticated_service_none _ (load_credentials_absent _ E)).
    rewrite (reauthenticate_flow_done _ S F L), (finish_run _ _ Sv B).
    reflexivity. }
  split.
  { intros w1 c w2 w3 b w4 w5 E L V X T V'.
    pose proof (get_authenticated_service_unrefreshable _ E L V X T V') as Run.
    split; [exact Run|]. rewrite Run. split; [|split].
    - rewrite count_after_run, reauthenticate_no_refresh. reflexivity.
    - intros w6 S. rewrite (reauthenticate_config_missing _ S). reflexivity.
    - intros w6 flow w7 S F. rewrite count_after_run.
      rewrite (reauthenticate_flow_once _ S F). reflexivity. }
  split.
  { intros w1 c w2 w3 w4 c' w5 w6 w7 yt w8 E L V X T F V' Sv B.
    rewrite (get_authenticated_service_refreshed _ E L V X T F V').
    rewrite (finish_run _ _ Sv B). reflexivity. }
  split.
  { intros w1 c w2 w3 w4 e w5 E L V X T F Ex.
    pose proof (get_authenticated_service_refresh_failed _ E L V X T F Ex)
      as Run.
    split; [exact Run|]. rewrite Run. split; [|split; [|split]].
    - rewrite count_after_run, reauthenticate_no_refresh. reflexivity.
    - intros w6 S. rewrite (reauthenticate_config_missing _ S). reflexivity.
    - intros w6 flow w7 c' w8 w9 yt w10 S Fl L' Sv B.
      rewrite (reauthenticate_flow_done _ S Fl L'), (finish_run _ _ Sv B).
      reflexivity.
    - intros w6 flow w7 S Fl. rewrite count_after_run.
      rewrite (reauthenticate_flow_once _ S Fl). reflexivity. }
  split; [apply authenticator_no_retry|].
  split; [apply authenticator_no_retry|].
  apply get_authenticated_service_saves.
Qed.

End Authenticator.

Lemma credential_load_recovers_witness :
  result_of (@load_credentials scripted (quiet None)) = Ret None
  /\ result_of
       (@load_credentials scripted
          (with_credentials (Some (Raise (OtherException (lit "ValueError"))))
                            (quiet None)))
     = Ret None.
Proof.
  split.
  - destruct (@credential_load_recovers scripted (quiet None)) as (Absent & _ & _).
    destruct (Absent (quiet None) eq_refl) as [L _]. rewrite L. reflexivity.
  - destruct (@credential_load_recovers scripted
                (with_credentials
                   (Some (Raise (OtherException (lit "ValueError"))))
                   (quiet None))) as (_ & Malformed & _).
    destruct (Malformed _ _ _ eq_refl eq_refl eq_refl) as [L _].
    rewrite L. reflexivity.
Defined.

Lemma authorize_cases_witness :
  @authorize scripted (Some spent) (quiet None)
  = @reauthenticate scripted (quiet None)
  /\ result_of (@reauthenticate scripted (with_client_secrets false (quiet None)))
     = Ret None
  /\ result_of
       (@reauthenticate scripted
          (with_flow (Raise (OtherException (lit "AccessDeniedError")))
                     (quiet None)))
     = Ret None
  /\ result_of (@reauthenticate scripted (quiet None)) = Ret (Some tt)
  /\ calls (trace_of (@authorize scripted (Some stale)
                        (with_refresh (Ret fresh) (quiet None))))
     = [Refresh; SaveCredentials; Build]
  /\ count is_browser_flow
       (trace_of (@authorize scripted (Some stale) (quiet None))) = 1
  /\ count is_save (trace_of (@authorize scripted None (quiet None))) = 1.
Proof.
  destruct (@authorize_cases scripted)
    as (_ & Unrefreshable & Missing & Aborted & Done & Refreshed & Failed
        & _ & Saved).
  split; [|split; [|split; [|split; [|split; [|split]]]]].
  - apply (Unrefreshable spent (quiet None) true (quiet None) (quiet None));
      reflexivity.
  - rewrite (Missing (with_client_secrets false (quiet None))
                     (with_client_secrets false (quiet None)) eq_refl).
    reflexivity.
  - set (w := with_flow (Raise (OtherException (lit "AccessDeniedError")))
                       (quiet None)).
    rewrite (Aborted w w tt w _ w eq_refl eq_refl eq_refl eq_refl).
    reflexivity.
  - destruct (Done (quiet None) (quiet None) tt (quiet None) fresh (quiet None)
                eq_refl eq_refl eq_refl) as [Run _].
    rewrite Run. reflexivity.
  - set (w := with_refresh (Ret fresh) (quiet None)).
    destruct (Refreshed stale w w fresh w w eq_refl eq_refl eq_refl eq_refl)
      as [Run _].
    refine (eq_trans (f_equal (fun x => calls (trace_of x)) Run) _).
    reflexivity.
  - destruct (Failed stale (quiet None) (quiet None)
                (OtherException (lit "RefreshError")) (quiet None)
                eq_refl eq_refl eq_refl eq_refl)
      as (_ & _ & _ & Once).
    apply (Once (quiet None) tt (quiet None)); reflexivity.
  - apply (Saved None (quiet None) tt). reflexivity.
Defined.

Lemma authenticator_flow_witness :
  result_of
    (@get_authenticated_service scripted
       (with_client_secrets false (quiet None))) = Ret None
  /\ result_of
       (@get_authenticated_service scripted
          (with_flow (Raise (OtherException (lit "AccessDeniedError")))
                     (quiet None)))
     = Ret None
  /\ calls (trace_of (@get_authenticated_service scripted (quiet None)))
     = [OsPathExists CREDENTIALS_FILE; OsPathExists CLIENT_SECRETS_FILE;
        FromClientSecretsFile; RunLocalServer; SaveCredentials; Build]
  /\ count is_browser_flow
       (trace_of
          (@get_authenticated_service scripted
             (with_credentials (Some (Ret spent)) (quiet None)))) = 1
  /\ calls
       (trace_of
          (@get_authenticated_service scripted
             (with_credentials (Some (Ret stale))
                (with_refresh (Ret fresh) (quiet None)))))
     = [OsPathExists CREDENTIALS_FILE; FromAuthorizedUserFile; Refresh;
        SaveCredentials; Build]
  /\ calls
       (trace_of
          (@get_authenticated_service scripted
             (with_credentials (Some (Ret stale)) (quiet None))))
     = [OsPathExists CREDENTIALS_FILE; FromAuthorizedUserFile; Refresh;
        OsPathExists CLIENT_SECRETS_FILE; FromClientSecretsFile;
        RunLocalServer; SaveCredentials; Build]
  /\ count is_save
       (trace_of (@get_authenticated_service scripted (quiet None))) = 1.
Proof.
  split; [|split; [|split; [|split; [|split; [|split]]]]].
  - set (w := with_client_secrets false (quiet None)).
    destruct (@authenticator_flow scripted w) as (Missing & _).
    rewrite (Missing w w eq_refl eq_refl). reflexivity.
  - set (w := with_flow (Raise (OtherException (lit "AccessDeniedError")))
                       (quiet None)).
    destruct (@authenticator_flow scripted w) as (_ & Aborted & _).
    rewrite (Aborted w w tt w _ w eq_refl eq_refl eq_refl eq_refl eq_refl).
    reflexivity.
  - set (w := quiet None).
    destruct (@authenticator_flow scripted w) as (_ & _ & Done & _).
    refine (eq_trans
              (f_equal (fun x => calls (trace_of x))
                 (Done w w tt w fresh w w tt w eq_refl eq_refl eq_refl
                       eq_refl eq_refl eq_refl)) _).
    reflexivity.
  - set (w := with_credentials (Some (Ret spent)) (quiet None)).
    destruct (@authenticator_flow scripted w) as (_ & _ & _ & Spent & _).
    destruct (Spent w spent w w true w w eq_refl eq_refl eq_refl eq_refl
                eq_refl eq_refl) as (_ & _ & _ & Once).
    apply (Once w tt w); reflexivity.
  - set (w := with_credentials (Some (Ret stale))
                (with_refresh (Ret fresh) (quiet None))).
    destruct (@authenticator_flow scripted w)
      as (_ & _ & _ & _ & Refreshed & _).
    refine (eq_trans
              (f_equal (fun x => calls (trace_of x))
                 (Refreshed w stale w w w fresh w w w tt w eq_refl eq_refl
                            eq_refl eq_refl eq_refl eq_refl eq_refl eq_refl
                            eq_refl)) _).
    reflexivity.
  - set (w := with_credentials (Some (Ret stale)) (quiet None)).
    destruct (@authenticator_flow scripted w)
      as (_ & _ & _ & _ & _ & Failed & _).
    destruct (Failed w stale w w w (OtherException (lit "RefreshError")) w
                eq_refl eq_refl eq_refl eq_refl eq_refl eq_refl eq_refl)
      as (_ & _ & _ & Flow & _).
    refine (eq_trans
              (f_equal (fun x => calls (trace_of x))
                 (Flow w tt w fresh w w tt w eq_refl eq_refl eq_refl eq_refl
                       eq_refl)) _).
    reflexivity.
  - set (w := quiet None).
    destruct (@authenticator_flow scripted w)
      as (_ & _ & _ & _ & _ & _ & _ & _ & Saved).
    apply (Saved tt); [reflexivity | vm_compute; lia].
Defined.

(** ** Playlist client *)

Section PlaylistClient.

Context {R : Runtime}.

Lemma decode_run content w :
  decode content w
  = match utf8_decode content with
    | Some body => ([], Ret body, w)
    | None => ([], Raise (UnicodeDecodeError content), w)
    end.
Proof. unfold decode. destruct (utf8_decode content); reflexivity. Qed.

Lemma create_playlist_created yt title description privacy w response w1 pid :
  playlists_insert yt title description privacy w = (Ret response, w1) ->
  dict_get (lit "id") response = Some pid ->
  create_playlist yt title description privacy w
  = ([Print (MsgAttemptCreate title);
      Call (PlaylistsInsert title description privacy);
      Print (MsgCreated title pid)], Ret (Some pid), w1).
Proof.
  intros P D. unfold create_playlist, bind, print, try_except, call, subscript.
  rewrite P, D. reflexivity.
Qed.

Lemma create_playlist_http_error yt title description privacy w status content w1 :
  playlists_insert yt title description privacy w
  = (Raise (HttpError status content), w1) ->
  create_playlist yt title description privacy w
  = match utf8_decode content with
    | Some body =>
        ([Print (MsgAttemptCreate title);
          Call (PlaylistsInsert title description privacy);
          Print (MsgCreateHttpError status body)], Ret None, w1)
    | None =>
        ([Print (MsgAttemptCreate title);
          Call (PlaylistsInsert title description privacy)],
         Raise (UnicodeDecodeError content), w1)
    end.
Proof.
  intros P. unfold create_playlist, bind, print, try_except, call.
  rewrite P. rewrite decode_run.
  destruct (utf8_decode content); reflexivity.
Qed.

(** Whatever [create_playlist] does, it makes no insertion. *)
Lemma create_playlist_no_insertion yt title description privacy w :
  count is_insertion (trace_of (create_playlist yt title description privacy w))
  = 0.
Proof.
  unfold count, trace_of, create_playlist, bind, print, try_except, call,
    subscript, decode, ret, raise.
  destruct (playlists_insert yt title description privacy w) as [[d|e] w1].
  - destruct (dict_get (lit "id") d); reflexivity.
  - destruct e; try reflexivity.
    destruct (utf8_decode content); reflexivity.
Qed.

Lemma count_app kind t1 t2 :
  count kind (t1 ++ t2) = count kind t1 + count kind t2.
Proof. unfold count. rewrite calls_app, filter_app, length_app. reflexivity. Qed.

Lemma count_after A kind t (x : list Event * result A * World) :
  count kind (trace_of (after t x)) = count kind t + count kind (trace_of x).
Proof. destruct x as [[t' r] w]. apply count_app. Qed.

(** The caller after a creation that gave no identifier. *)
Lemma fill_playlist_failed yt ids w t w1 :
  create_playlist yt PLAYLIST_TITLE PLAYLIST_DESCRIPTION
                  PLAYLIST_PRIVACY_STATUS w = (t, Ret None, w1) ->
  fill_playlist yt ids w = (t ++ [Print MsgCreateFailed], Ret tt, w1).
Proof. intros C. unfold fill_playlist, bind. rewrite C. reflexivity. Qed.

Lemma fill_playlist_raised yt ids w t e w1 :
  create_playlist yt PLAYLIST_TITLE PLAYLIST_DESCRIPTION
                  PLAYLIST_PRIVACY_STATUS w = (t, Raise e, w1) ->
  fill_playlist yt ids w = (t, Raise e, w1).
Proof. intros C. unfold fill_playlist, bind. rewrite C. reflexivity. Qed.

(** No insertion without an identifier from the creation. *)
Lemma fill_playlist_no_insertion yt ids w :
  (forall pid,
      result_of (create_playlist yt PLAYLIST_TITLE PLAYLIST_DESCRIPTION
                                 PLAYLIST_PRIVACY_STATUS w) = Ret (Some pid) ->
      nonempty pid = false) ->
  count is_insertion (trace_of (fill_playlist yt ids w)) = 0.
Proof.
  intros H.
  pose proof (create_playlist_no_insertion yt PLAYLIST_TITLE
                PLAYLIST_DESCRIPTION PLAYLIST_PRIVACY_STATUS w) as N.
  unfold fill_playlist, bind.
  destruct (create_playlist yt PLAYLIST_TITLE PLAYLIST_DESCRIPTION
                            PLAYLIST_PRIVACY_STATUS w) as [[t [[pid|]|e]] w1];
    unfold trace_of in *; cbn [fst snd] in *.
  - rewrite (H pid eq_refl). cbn -[count]. rewrite count_app, N. reflexivity.
  - cbn -[count]. rewrite count_app, N. reflexivity.
  - exact N.
Qed.

Lemma read_links_calls w : calls (trace_of (read_links w)) = [OpenLinks].
Proof.
  unfold read_links, bind at 1, ask, trace_of.
  destruct (open_links w) as [[lines failure] w1]. cbn [fst snd].
  unfold bind. rewrite scan_lines_run.
  destruct failure; cbn [fst snd ret raise]; rewrite ?app_nil_r;
    cbn [app calls flat_map]; rewrite calls_of_skip_prints; reflexivity.
Qed.

Lemma authenticator_calls w :
  count is_insertion (trace_of (get_authenticated_service w)) = 0
  /\ count is_creation (trace_of (get_authenticated_service w)) = 0.
Proof.
  unfold count, trace_of. unfold_script. cbn.
  repeat world_step; split; reflexivity.
Qed.

(** Either [main] stops before the playlist client, having made no
    insertion, or it reaches [fill_playlist] after events without any. *)
Lemma main_reaches_fill w :
  count is_insertion (trace_of (main w)) = 0
  \/ exists t youtube video_ids w1,
       main w = after t (fill_playlist youtube video_ids w1)
       /\ count is_insertion t = 0.
Proof.
  unfold main.
  destruct (os_path_exists YT_LINKS_FILE w) as [found w1] eqn:E.
  rewrite (@bind_run_ret _ _ _ _ _ w [Call (OsPathExists YT_LINKS_FILE)] found w1)
    by (unfold ask; rewrite E; reflexivity).
  destruct found; cbn [negb]; [|left; reflexivity].
  pose proof (read_links_calls w1) as RL.
  destruct (read_links w1) as [[t1 [[|id ids]|e]] w2] eqn:Links;
    unfold trace_of in RL; cbn [fst] in RL.
  - left. rewrite (@bind_run_ret _ _ _ _ _ w1 t1 [] w2 Links).
    unfold print. cbn -[count]. unfold count. cbn [calls flat_map app].
    rewrite calls_app, RL. reflexivity.
  - rewrite (@bind_run_ret _ _ _ _ _ w1 t1 (id :: ids) w2 Links).
    rewrite (@bind_run_ret _ _ _ (print (MsgFound (List.length (id :: ids)))) _
               w2 [Print (MsgFound (List.length (id :: ids)))] tt w2 eq_refl).
    pose proof (authenticator_calls w2) as [AI _].
    destruct (get_authenticated_service w2) as [[t2 [[yt|]|e]] w3] eqn:Auth;
      unfold trace_of in AI; cbn [fst] in AI.
    + right. rewrite (@bind_run_ret _ _ _ _ _ w2 t2 (Some yt) w3 Auth).
      rewrite !after_after.
      eexists _, yt, (id :: ids), w3. split; [reflexivity|].
      rewrite !count_app, AI. unfold count. rewrite RL. reflexivity.
    + left. rewrite (@bind_run_ret _ _ _ _ _ w2 t2 None w3 Auth).
      rewrite !after_after. unfold print. rewrite count_after.
      rewrite !count_app, AI. unfold count. rewrite RL. reflexivity.
    + left. rewrite (@bind_run_raise _ _ _ _ _ w2 t2 e w3 Auth).
      rewrite !after_after, count_after. unfold trace_of. cbn [fst].
      rewrite !count_app, AI. unfold count. rewrite RL. reflexivity.
  - left. rewrite (@bind_run_raise _ _ _ _ _ w1 t1 e w2 Links).
    rewrite count_after. unfold trace_of. cbn [fst].
    unfold count. rewrite RL. reflexivity.
Qed.

(** The part of C5 that holds.  [create_playlist] returns the identifier
    found in the response of a successful creation.  When the creation
    raises an [HttpError] it returns no identifier: with a body that decodes
    it prints the status and the body and returns [None], and the caller
    then prints that the creation failed and returns at once.  No insertion
    is made, neither by the caller nor anywhere in the run of [main], and
    the same holds for every creation that gives no identifier. *)
Theorem create_playlist_failure_is_fatal youtube w :
  (forall title description privacy response w1 pid,
      playlists_insert youtube title description privacy w = (Ret response, w1) ->
      dict_get (lit "id") response = Some pid ->
      create_playlist youtube title description privacy w
      = ([Print (MsgAttemptCreate title);
          Call (PlaylistsInsert title description privacy);
          Print (MsgCreated title pid)], Ret (Some pid), w1))
  /\ (forall title description privacy status content w1,
        playlists_insert youtube title description privacy w
        = (Raise (HttpError status content), w1) ->
        (forall pid,
            result_of (create_playlist youtube title description privacy w)
            <> Ret (Some pid))
        /\ (forall body,
              utf8_decode content = Some body ->
              create_playlist youtube title description privacy w
              = ([Print (MsgAttemptCreate title);
                  Call (PlaylistsInsert title description privacy);
                  Print (MsgCreateHttpError status body)], Ret None, w1)))
  /\ (forall video_ids status content w1,
        playlists_insert youtube PLAYLIST_TITLE PLAYLIST_DESCRIPTION
                         PLAYLIST_PRIVACY_STATUS w
        = (Raise (HttpError status content), w1) ->
        count is_insertion (trace_of (fill_playlist youtube video_ids w)) = 0
        /\ (forall body,
              utf8_decode content = Some body ->
              fill_playlist youtube video_ids w
              = ([Print (MsgAttemptCreate PLAYLIST_TITLE);
                  Call (PlaylistsInsert PLAYLIST_TITLE PLAYLIST_DESCRIPTION
                                        PLAYLIST_PRIVACY_STATUS);
                  Print (MsgCreateHttpError status body);
                  Print MsgCreateFailed], Ret tt, w1))
        /\ (forall w0 t,
              main w0 = after t (fill_playlist youtube video_ids w) ->
              count is_insertion t = 0 ->
              count is_insertion (trace_of (main w0)) = 0))
  /\ (forall video_ids,
        (forall pid,
            result_of (create_playlist youtube PLAYLIST_TITLE
                         PLAYLIST_DESCRIPTION PLAYLIST_PRIVACY_STATUS w)
            = Ret (Some pid) ->
            nonempty pid = false) ->
        count is_insertion (trace_of (fill_playlist youtube video_ids w)) = 0)
  /\ (forall w0,
        count is_insertion (trace_of (main w0)) = 0
        \/ exists t youtube' video_ids w1,
             main w0 = after t (fill_playlist youtube' video_ids w1)
             /\ count is_insertion t = 0).
Proof.
  split; [intros; eapply create_playlist_created; eauto|].
  split.
  { intros title description privacy status content w1 P.
    rewrite (create_playlist_http_error _ _ _ _ _ P). split.
    - intros pid. destruct (utf8_decode content); discriminate.
    - intros body D. rewrite D. reflexivity. }
  split.
  { intros ids status content w1 P.
    pose proof (create_playlist_http_error _ _ _ _ _ P) as C.
    assert (count is_insertion (trace_of (fill_playlist youtube ids w)) = 0)
      as N.
    { apply fill_playlist_no_insertion. intros pid. rewrite C.
      destruct (utf8_decode content); discriminate. }
    split; [exact N|]. split.
    - intros body D. rewrite D in C.
      rewrite (@fill_playlist_failed youtube ids w _ w1 C). reflexivity.
    - intros w0 t Run T. rewrite Run, count_after, T, N. reflexivity. }
  split; [intros ids; apply fill_playlist_no_insertion|].
  exact main_reaches_fill.
Qed.

End PlaylistClient.

Lemma create_playlist_failure_is_fatal_witness :
  result_of (@create_playlist scripted tt (lit "t") (lit "d") (lit "unlisted")
               (quiet None))
  = Ret (Some (lit "PL1"))
  /\ count is_insertion
       (trace_of
          (@fill_playlist scripted tt [lit "dQw4w9WgXcQ"]
             (with_create (Raise (HttpError 403 (blit "quotaExceeded")))
                          (quiet None))))
     = 0.
Proof.
  split.
  - destruct (@create_playlist_failure_is_fatal scripted tt (quiet None))
      as (Created & _).
    rewrite (Created (lit "t") (lit "d") (lit "unlisted")
                     [(lit "id", lit "PL1")] (quiet None) (lit "PL1")
                     eq_refl eq_refl).
    reflexivity.
  - set (w := with_create (Raise (HttpError 403 (blit "quotaExceeded")))
                          (quiet None)).
    destruct (@create_playlist_failure_is_fatal scripted tt w)
      as (_ & _ & Fatal & _).
    destruct (Fatal [lit "dQw4w9WgXcQ"] 403%Z (blit "quotaExceeded") w eq_refl)
      as [None_inserted _].
    exact None_inserted.
Defined.

(** C5 fails on an error whose body is not UTF-8.  The links file is read,
    the authentication succeeds and the creation is answered by a 500 with
    the body [0xff].  The handler of [create_playlist] decodes the body to
    print it (line 136), the [UnicodeDecodeError] escapes: the status and
    the body are not printed, [None] is not returned, and [main] raises
    instead of printing the failure message and returning.  No insertion is
    made. *)
Theorem garbled_error_body_breaks_creation :
  result_of (@create_playlist scripted tt (@PLAYLIST_TITLE scripted)
               (@PLAYLIST_DESCRIPTION scripted) PLAYLIST_PRIVACY_STATUS
               garbled_creation_world)
  = Raise (UnicodeDecodeError [xff])
  /\ result_of (@main scripted garbled_creation_world)
     = Raise (UnicodeDecodeError [xff])
  /\ filter is_creation (calls (trace_of (@main scripted garbled_creation_world)))
     = [PlaylistsInsert (@PLAYLIST_TITLE scripted)
                        (@PLAYLIST_DESCRIPTION scripted)
                        PLAYLIST_PRIVACY_STATUS]
  /\ filter is_creation_report
       (prints (trace_of (@main scripted garbled_creation_world)))
     = []
  /\ filter is_insertion (calls (trace_of (@main scripted garbled_creation_world)))
     = [].
Proof.
  split; [vm_compute; reflexivity|].
  split; [vm_compute; reflexivity|].
  split; [vm_compute; reflexivity|].
  split; vm_compute; reflexivity.
Qed.

(** ** Item insertion *)

Section Insertion.

Context {R : Runtime}.

Lemma contains_spec needle hay :
  contains needle hay = true <-> exists pre suf, hay = pre ++ needle ++ suf.
Proof.
  induction hay as [|c hay IH].
  - cbn [contains]. rewrite orb_false_r, is_prefix_spec. split.
    + intros [t E]. exists [], t. exact E.
    + intros (pre & suf & E). destruct pre as [|d pre]; [eauto|discriminate E].
  - cbn [contains]. rewrite orb_true_iff, is_prefix_spec, IH. split.
    + intros [[t E]|(pre & suf & E)].
      * exists [], t. exact E.
      * exists (c :: pre), suf. rewrite E. reflexivity.
    + intros (pre & suf & E). destruct pre as [|d pre].
      * left. eauto.
      * right. injection E as _ E. eauto.
Qed.

Lemma lower_from_plain tbl x : forall before y,
  forallb plain x = true ->
  exists before', lower_from tbl before (x ++ y) = x ++ lower_from tbl before' y.
Proof.
  induction x as [|c x IH]; intros before y P.
  - exists before. reflexivity.
  - cbn [forallb] in P. apply andb_true_iff in P as [Pc P].
    unfold plain in Pc. apply andb_true_iff in Pc as [A U].
    apply negb_true_iff in U.
    destruct (IH (before ++ [c]) y P) as [before' E]. exists before'.
    cbn [app lower_from]. rewrite A, E. unfold ascii_lower. rewrite U.
    reflexivity.
Qed.

Lemma lower_from_keeps tbl needle suf pre : forall before,
  forallb plain needle = true ->
  exists x y, lower_from tbl before (pre ++ needle ++ suf) = x ++ needle ++ y.
Proof.
  induction pre as [|c pre IH]; intros before P.
  - destruct (lower_from_plain tbl needle before suf P) as [before' E].
    exists [], (lower_from tbl before' suf). exact E.
  - destruct (IH (before ++ [c]) P) as (x & y & E).
    cbn [app lower_from]. rewrite E.
    eexists (_ ++ x), y. rewrite <- app_assoc. reflexivity.
Qed.

(** A lower-case ASCII needle found in a text is found in its lower-cased
    form. *)
Lemma contains_lower tbl needle body :
  forallb plain needle = true ->
  contains needle body = true ->
  contains needle (lower tbl body) = true.
Proof.
  intros P C. apply contains_spec in C as (pre & suf & ->).
  apply contains_spec. unfold lower. apply lower_from_keeps. exact P.
Qed.

Lemma is_duplicate_error_run status content w :
  is_duplicate_error status content w
  = if (status =? 400)%Z then
      match utf8_decode content with
      | Some body =>
          ([], Ret (contains (lit "duplicate") (lower unicode_lower body)), w)
      | None => ([], Raise (UnicodeDecodeError content), w)
      end
    else ([], Ret false, w).
Proof.
  unfold is_duplicate_error. destruct (status =? 400)%Z; [|reflexivity].
  unfold bind. rewrite decode_run. destruct (utf8_decode content); reflexivity.
Qed.

Lemma on_http_error_not_found video_id content w :
  on_http_error video_id 404 content w
  = ([Print (MsgNotFound video_id)], Ret false, w).
Proof. reflexivity. Qed.

Lemma on_http_error_decoded video_id status content body w :
  status <> 404%Z ->
  utf8_decode content = Some body ->
  on_http_error video_id status content w
  = ([Print (if (status =? 400)%Z
                && contains (lit "duplicate") (lower unicode_lower body)
             then MsgDuplicate video_id
             else MsgAddHttpError status video_id body)], Ret false, w).
Proof.
  intros N D. unfold on_http_error.
  destruct (Z.eqb_spec status 404) as [E|_]; [contradiction|].
  unfold bind at 1. rewrite is_duplicate_error_run, D.
  destruct (status =? 400)%Z; cbn [andb].
  - destruct (contains (lit "duplicate") (lower unicode_lower body)).
    + reflexivity.
    + unfold bind. rewrite decode_run, D. reflexivity.
  - unfold bind. rewrite decode_run, D. reflexivity.
Qed.

Lemma on_http_error_undecodable video_id status content w :
  status <> 404%Z ->
  utf8_decode content = None ->
  on_http_error video_id status content w
  = ([], Raise (UnicodeDecodeError content), w).
Proof.
  intros N D. unfold on_http_error.
  destruct (Z.eqb_spec status 404) as [E|_]; [contradiction|].
  unfold bind at 1. rewrite is_duplicate_error_run, D.
  destruct (status =? 400)%Z; [reflexivity|].
  unfold bind. rewrite decode_run, D. reflexivity.
Qed.

(** C6, as amended.  Status 404 is reported as not found, whatever the
    body.  For a body that decodes, status 400 with "duplicate" in the
    lower-cased body is reported as a duplicate, and everything else that is
    not a 404 as an HTTP error with its status and body; nothing but the
    status and this test on the body is looked at.  A body that contains
    "duplicate" as it stands passes the test. *)
Theorem http_error_classification video_id status content w :
  (status = 404%Z ->
   on_http_error video_id status content w
   = ([Print (MsgNotFound video_id)], Ret false, w))
  /\ (forall body,
        utf8_decode content = Some body ->
        class_of_run (on_http_error video_id status content w)
        = Some (lowered_class unicode_lower status body)
        /\ (status = 400%Z ->
            contains (lit "duplicate") (lower unicode_lower body) = true ->
            on_http_error video_id status content w
            = ([Print (MsgDuplicate video_id)], Ret false, w))
        /\ (status <> 404%Z ->
            ~ (status = 400%Z
               /\ contains (lit "duplicate") (lower unicode_lower body) = true) ->
            on_http_error video_id status content w
            = ([Print (MsgAddHttpError status video_id body)], Ret false, w))
        /\ (contains (lit "duplicate") body = true ->
            contains (lit "duplicate") (lower unicode_lower body) = true)).
Proof.
  split.
  { intros ->. apply on_http_error_not_found. }
  intros body D. split; [|split; [|split]].
  - unfold lowered_class. destruct (Z.eqb_spec status 404) as [->|N].
    + reflexivity.
    + rewrite (@on_http_error_decoded video_id status content body w N D).
      destruct ((status =? 400)%Z
                && contains (lit "duplicate") (lower unicode_lower body));
        reflexivity.
  - intros -> C.
    rewrite (@on_http_error_decoded video_id 400%Z content body w);
      [|discriminate|exact D].
    rewrite C. reflexivity.
  - intros N ND. rewrite (@on_http_error_decoded video_id status content body w N D).
    destruct (Z.eqb_spec status 400) as [E|_]; [|reflexivity].
    destruct (contains (lit "duplicate") (lower unicode_lower body)) eqn:C;
      [|reflexivity].
    exfalso. apply ND. split; [exact E|reflexivity].
  - apply contains_lower. reflexivity.
Qed.

Lemma add_video_to_playlist_run youtube playlist_id video_id w r w1 :
  playlist_items_insert youtube playlist_id video_id w = (r, w1) ->
  add_video_to_playlist youtube playlist_id video_id w
  = after [Print (MsgAdding video_id playlist_id);
           Call (PlaylistItemsInsert playlist_id video_id)]
          match r with
          | Ret _ => ([Print (MsgAdded video_id)], Ret true, w1)
          | Raise (HttpError status content) =>
              on_http_error video_id status content w1
          | Raise e =>
              if is_Exception e
              then ([Print (MsgAddUnexpected video_id e)], Ret false, w1)
              else ([], Raise e, w1)
          end.
Proof.
  intros P. unfold add_video_to_playlist, bind at 1, print, try_except.
  unfold bind at 1, call. rewrite P.
  destruct r as [[]|e]; [reflexivity|].
  destruct e; cbn [is_Exception];
    try (destruct (on_http_error video_id status content w1) as [[t r] w2]);
    reflexivity.
Qed.

(** A handled answer: one insertion call, then [True] for a success and
    [False] for a failure. *)
Lemma add_video_handled youtube playlist_id video_id w r w1 :
  playlist_items_insert youtube playlist_id video_id w = (r, w1) ->
  handled r = true ->
  exists t,
    add_video_to_playlist youtube playlist_id video_id w
    = (t, Ret (succeeded r), w1)
    /\ calls t = [PlaylistItemsInsert playlist_id video_id].
Proof.
  intros P H. rewrite (add_video_to_playlist_run _ _ _ _ P).
  destruct r as [[]|e]; [eexists; split; reflexivity|].
  destruct e; cbn [handled is_Exception] in H; try rewrite H;
    try (eexists; split; reflexivity); try discriminate H.
  destruct (Z.eqb_spec status 404) as [->|N].
  - rewrite on_http_error_not_found. eexists; split; reflexivity.
  - cbn [orb] in H. destruct (utf8_decode content) as [body|] eqn:D;
      [|discriminate H].
    rewrite (@on_http_error_decoded video_id status content body w1 N D).
    eexists; split; reflexivity.
Qed.

(** An answer that is not handled escapes, after its insertion call. *)
Lemma add_video_unhandled youtube playlist_id video_id w r w1 :
  playlist_items_insert youtube playlist_id video_id w = (r, w1) ->
  handled r = false ->
  exists e,
    add_video_to_playlist youtube playlist_id video_id w
    = ([Print (MsgAdding video_id playlist_id);
        Call (PlaylistItemsInsert playlist_id video_id)], Raise e, w1).
Proof.
  intros P H. rewrite (add_video_to_playlist_run _ _ _ _ P).
  destruct r as [[]|e]; [discriminate H|].
  destruct e; cbn [handled is_Exception] in H; try discriminate H.
  - apply orb_false_iff in H as [N D].
    destruct (utf8_decode content) eqn:D'; [discriminate D|].
    rewrite on_http_error_undecodable;
      [eexists; reflexivity | intros ->; discriminate N | exact D'].
  - eexists; reflexivity.
Qed.

(** When every answer is handled the loop attempts every identifier, in
    order, and returns the number of successes added to its counter. *)
Lemma add_videos_handled youtube playlist_id video_ids : forall added_count w,
  forallb handled (replies youtube playlist_id video_ids w) = true ->
  exists t w',
    add_videos youtube playlist_id video_ids added_count w
    = (t, Ret (added_count
               + List.length (filter succeeded
                                     (replies youtube playlist_id video_ids w))),
       w')
    /\ calls t = map (PlaylistItemsInsert playlist_id) video_ids.
Proof.
  induction video_ids as [|video_id rest IH]; intros n w H.
  - exists [], w. cbn. rewrite Nat.add_0_r. split; reflexivity.
  - cbn [replies] in *.
    destruct (playlist_items_insert youtube playlist_id video_id w)
      as [r w1] eqn:P.
    cbn [forallb] in H. apply andb_true_iff in H as [Hr H].
    destruct (add_video_handled _ _ _ _ P Hr) as (t1 & Run & C1).
    destruct (IH (if succeeded r then S n else n) w1 H) as (t2 & w' & Run2 & C2).
    exists (t1 ++ t2), w'. split.
    + cbn [add_videos]. unfold bind. rewrite Run, Run2.
      cbn [filter]. destruct (succeeded r); cbn [List.length];
        f_equal; f_equal; f_equal; lia.
    + rewrite calls_app, C1, C2. reflexivity.
Qed.

(** The first answer that is not handled stops the loop: the identifiers
    after it are not attempted and no count comes back. *)
Lemma add_videos_halts youtube playlist_id before video_id rest :
  forall added_count w,
  forallb handled (replies youtube playlist_id before w) = true ->
  forallb handled (replies youtube playlist_id (before ++ [video_id]) w) = false ->
  exists t e w',
    add_videos youtube playlist_id (before ++ video_id :: rest) added_count w
    = (t, Raise e, w')
    /\ calls t = map (PlaylistItemsInsert playlist_id) (before ++ [video_id]).
Proof.
  induction before as [|b before IH]; intros n w H U.
  - cbn [app replies forallb] in *.
    destruct (playlist_items_insert youtube playlist_id video_id w)
      as [r w1] eqn:P.
    cbn [forallb] in U. rewrite andb_true_r in U.
    destruct (add_video_unhandled _ _ _ _ P U) as (e & Run).
    exists [Print (MsgAdding video_id playlist_id);
            Call (PlaylistItemsInsert playlist_id video_id)], e, w1.
    split; [|reflexivity].
    cbn [add_videos]. unfold bind. rewrite Run. reflexivity.
  - cbn [app replies] in *.
    destruct (playlist_items_insert youtube playlist_id b w) as [r w1] eqn:P.
    cbn [forallb] in *. apply andb_true_iff in H as [Hr H].
    rewrite Hr in U. cbn [andb] in U.
    destruct (add_video_handled _ _ _ _ P Hr) as (t1 & Run & C1).
    destruct (IH (if succeeded r then S n else n) w1 H U)
      as (t2 & e & w' & Run2 & C2).
    exists (t1 ++ t2), e, w'. split.
    + cbn [add_videos]. unfold bind. rewrite Run, Run2. reflexivity.
    + rewrite calls_app, C1, C2. reflexivity.
Qed.

End Insertion.

Lemma http_error_classification_witness :
  @on_http_error scripted (lit "dQw4w9WgXcQ") 404 (blit "gone") (quiet None)
  = ([Print (MsgNotFound (lit "dQw4w9WgXcQ"))], Ret false, quiet None)
  /\ @on_http_error scripted (lit "dQw4w9WgXcQ") 400 (blit "Duplicate video")
       (quiet None)
     = ([Print (MsgDuplicate (lit "dQw4w9WgXcQ"))], Ret false, quiet None)
  /\ @on_http_error scripted (lit "dQw4w9WgXcQ") 403 (blit "quotaExceeded")
       (quiet None)
     = ([Print (MsgAddHttpError 403 (lit "dQw4w9WgXcQ") (lit "quotaExceeded"))],
        Ret false, quiet None).
Proof.
  split; [|split].
  - destruct (@http_error_classification scripted (lit "dQw4w9WgXcQ") 404%Z
                (blit "gone") (quiet None)) as [Gone _].
    apply Gone. reflexivity.
  - destruct (@http_error_classification scripted (lit "dQw4w9WgXcQ") 400%Z
                (blit "Duplicate video") (quiet None)) as [_ Decoded].
    destruct (Decoded (lit "Duplicate video") eq_refl) as (_ & Dup & _).
    apply Dup; reflexivity.
  - destruct (@http_error_classification scripted (lit "dQw4w9WgXcQ") 403%Z
                (blit "quotaExceeded") (quiet None)) as [_ Decoded].
    destruct (Decoded (lit "quotaExceeded") eq_refl) as (_ & _ & Other & _).
    apply Other; [discriminate|]. intros [E _]. discriminate E.
Defined.

(** C6 as stated fails: the test for a duplicate is made on the lower-cased
    body.  A 400 whose body says "Duplicate video" does not contain
    "duplicate", so the stated rule makes it an ApiError; the handler
    reports a duplicate. *)
Lemma duplicate_test_ignores_case :
  utf8_decode (blit "Duplicate video") = Some (lit "Duplicate video")
  /\ contains (lit "duplicate") (lit "Duplicate video") = false
  /\ claimed_class 400 (lit "Duplicate video") = ApiError
  /\ class_of_run (@on_http_error scripted (lit "dQw4w9WgXcQ") 400
                     (blit "Duplicate video") (quiet None))
     = Some Duplicate
  /\ class_of_run (@on_http_error scripted (lit "dQw4w9WgXcQ") 400
                     (blit "Duplicate video") (quiet None))
     <> Some (claimed_class 400 (lit "Duplicate video")).
Proof. repeat split. discriminate. Qed.

(** C3 fails on an error whose body is not UTF-8.  Three links are read;
    the first insertion is answered by a duplicate error, the second by a 500
    with the body [0xff], the third would succeed.  The duplicate does not
    stop the loop, but the second answer does: printing it decodes the body
    inside the handler, the [UnicodeDecodeError] escapes from [main], the
    third identifier is never attempted and no count is printed. *)
Theorem garbled_error_body_halts_the_loop :
  result_of (@main scripted garbled_reply_world)
  = Raise (UnicodeDecodeError [xff])
  /\ filter is_insertion (calls (trace_of (@main scripted garbled_reply_world)))
     = [PlaylistItemsInsert (lit "PL1") (lit "dQw4w9WgXcQ");
        PlaylistItemsInsert (lit "PL1") (lit "abc12345678")]
  /\ In (MsgDuplicate (lit "dQw4w9WgXcQ"))
        (prints (trace_of (@main scripted garbled_reply_world)))
  /\ filter is_finished (prints (trace_of (@main scripted garbled_reply_world)))
     = []
  /\ @replies scripted tt (lit "PL1")
       [lit "dQw4w9WgXcQ"; lit "abc12345678"; lit "9bZkp7q19f0"]
       garbled_reply_world
     = [Raise (HttpError 400 (blit "duplicate")); Raise (HttpError 500 [xff]);
        Ret tt].
Proof.
  split; [vm_compute; reflexivity|].
  split; [vm_compute; reflexivity|].
  split; [vm_compute; tauto|].
  split; vm_compute; reflexivity.
Qed.

(* ================================================================== *)
(** * Part III: further properties of the script *)
(* ================================================================== *)

(** ** Trimming *)

Lemma lstrip_spaces l s :
  forallb is_space l = true -> lstrip (l ++ s) = lstrip s.
Proof.
  induction l as [|c l IH]; intros H; [reflexivity|].
  cbn [forallb] in H. apply andb_true_iff in H as [Hc H].
  cbn [app lstrip]. rewrite Hc. apply IH, H.
Qed.

Lemma lstrip_all_spaces l : forallb is_space l = true -> lstrip l = [].
Proof.
  intros H. rewrite <- (app_nil_r l). rewrite lstrip_spaces by exact H.
  reflexivity.
Qed.

Lemma lstrip_clean s : starts_clean s = true -> lstrip s = s.
Proof.
  destruct s as [|c s]; [reflexivity|]. cbn. intros H.
  apply negb_true_iff in H. rewrite H. reflexivity.
Qed.

Lemma lstrip_decompose s :
  exists l, s = l ++ lstrip s /\ forallb is_space l = true
            /\ starts_clean (lstrip s) = true.
Proof.
  induction s as [|c s (l & E & L & C)].
  - exists []. repeat split.
  - cbn [lstrip]. destruct (is_space c) eqn:Hc.
    + exists (c :: l). cbn. rewrite Hc, L. rewrite <- E. repeat split. exact C.
    + exists []. cbn. rewrite Hc. repeat split.
Qed.

Lemma forallb_rev (A : Type) (f : A -> bool) l :
  forallb f (rev l) = forallb f l.
Proof.
  induction l as [|a l IH]; [reflexivity|].
  cbn. rewrite forallb_app, IH. cbn. rewrite andb_true_r. apply andb_comm.
Qed.

(** What [strip] returns: the trimmed middle of the text. *)
Lemma strip_middle l m r :
  forallb is_space l = true ->
  forallb is_space r = true ->
  is_trimmed m = true ->
  strip (l ++ m ++ r) = m.
Proof.
  intros L Rs T. unfold is_trimmed in T. apply andb_true_iff in T as [Th Tl].
  unfold strip, rstrip. rewrite lstrip_spaces by exact L.
  destruct m as [|c m].
  - cbn [app]. rewrite (@lstrip_all_spaces r Rs). reflexivity.
  - rewrite (@lstrip_clean ((c :: m) ++ r)) by exact Th.
    rewrite rev_app_distr.
    rewrite (@lstrip_spaces (rev r) (rev (c :: m)))
      by (rewrite forallb_rev; exact Rs).
    rewrite (@lstrip_clean (rev (c :: m)) Tl). apply rev_involutive.
Qed.

(** Every text is white space, its trimmed middle, white space. *)
Lemma strip_decompose s :
  exists l r,
    s = l ++ strip s ++ r
    /\ forallb is_space l = true /\ forallb is_space r = true
    /\ is_trimmed (strip s) = true.
Proof.
  destruct (lstrip_decompose s) as (l & E & L & C).
  destruct (lstrip_decompose (rev (lstrip s))) as (r' & E' & L' & C').
  exists l, (rev r').
  assert (lstrip s = strip s ++ rev r') as Mid.
  { unfold strip, rstrip. rewrite <- rev_app_distr, <- E'.
    symmetry. apply rev_involutive. }
  split; [rewrite <- Mid; exact E|].
  split; [exact L|]. split; [rewrite forallb_rev; exact L'|].
  unfold is_trimmed. apply andb_true_iff. split.
  - destruct (strip s) as [|c t] eqn:S; [reflexivity|].
    rewrite Mid in C. exact C.
  - unfold strip at 1, rstrip. rewrite rev_involutive. exact C'.
Qed.

Lemma strip_idempotent s : strip (strip s) = strip s.
Proof.
  destruct (strip_decompose s) as (l & r & _ & _ & _ & T).
  rewrite <- (app_nil_r (strip s)) at 1.
  apply (@strip_middle [] (strip s) []); auto.
Qed.

Lemma strip_blank s : forallb is_space s = true -> strip s = [].
Proof.
  intros H. rewrite <- (app_nil_r s).
  apply (@strip_middle s [] []); auto.
Qed.

(** ** Configuration *)

Lemma or_default_spec (entered default : str) :
  let chosen := if nonempty (strip entered) then strip entered else default in
  nonempty default = true ->
  is_trimmed default = true ->
  nonempty chosen = true
  /\ is_trimmed chosen = true
  /\ (forallb is_space entered = true -> chosen = default)
  /\ (forall l m r,
        entered = l ++ m ++ r ->
        forallb is_space l = true -> forallb is_space r = true ->
        is_trimmed m = true -> nonempty m = true ->
        chosen = m).
Proof.
  intros chosen D T. subst chosen. split; [|split; [|split]].
  - destruct (nonempty (strip entered)) eqn:N; [exact N | exact D].
  - destruct (nonempty (strip entered)); [|exact T].
    destruct (strip_decompose entered) as (l & r & _ & _ & _ & S). exact S.
  - intros B. rewrite (@strip_blank entered B). reflexivity.
  - intros l m r -> L Rs Tm N. rewrite (@strip_middle l m r L Rs Tm), N.
    reflexivity.
Qed.

(** X1.  The title and the description of the playlist are never empty and
    never start or end with white space.  An answer that is empty or all
    white space gives the default; any other answer is used without the
    white space around it. *)
Theorem playlist_title_and_description {R : Runtime} :
  (nonempty PLAYLIST_TITLE = true
   /\ is_trimmed PLAYLIST_TITLE = true
   /\ (forallb is_space entered_title = true ->
       PLAYLIST_TITLE = DEFAULT_PLAYLIST_TITLE)
   /\ (forall l m r,
         entered_title = l ++ m ++ r ->
         forallb is_space l = true -> forallb is_space r = true ->
         is_trimmed m = true -> nonempty m = true ->
         PLAYLIST_TITLE = m))
  /\ (nonempty PLAYLIST_DESCRIPTION = true
      /\ is_trimmed PLAYLIST_DESCRIPTION = true
      /\ (forallb is_space entered_description = true ->
          PLAYLIST_DESCRIPTION = DEFAULT_PLAYLIST_DESCRIPTION)
      /\ (forall l m r,
            entered_description = l ++ m ++ r ->
            forallb is_space l = true -> forallb is_space r = true ->
            is_trimmed m = true -> nonempty m = true ->
            PLAYLIST_DESCRIPTION = m)).
Proof.
  split.
  - apply (or_default_spec entered_title DEFAULT_PLAYLIST_TITLE); reflexivity.
  - apply (or_default_spec entered_description DEFAULT_PLAYLIST_DESCRIPTION);
      reflexivity.
Qed.

Lemma playlist_title_and_description_witness :
  @PLAYLIST_TITLE (typed (lit "  Road trip ") (lit "   ")) = lit "Road trip"
  /\ @PLAYLIST_DESCRIPTION (typed (lit "  Road trip ") (lit "   "))
     = DEFAULT_PLAYLIST_DESCRIPTION.
Proof.
  destruct (@playlist_title_and_description
              (typed (lit "  Road trip ") (lit "   ")))
    as [(_ & _ & _ & Title) (_ & _ & Blank & _)].
  split.
  - apply (Title (lit "  ") (lit "Road trip") (lit " ")); reflexivity.
  - apply Blank. reflexivity.
Defined.

(** ** White space around a link *)

Lemma id_char_not_space c : is_id_char c = true -> is_space c = false.
Proof.
  unfold is_id_char, is_space, between. intros H.
  repeat rewrite orb_true_iff in H. repeat rewrite andb_true_iff in H.
  repeat rewrite N.leb_le in H. repeat rewrite N.eqb_eq in H.
  repeat rewrite orb_false_iff. repeat rewrite andb_false_iff.
  repeat rewrite N.leb_gt. repeat rewrite N.eqb_neq.
  lia.
Qed.

Lemma take_id_spaces n r : forall t,
  forallb is_space r = true -> take_id n (t ++ r) = take_id n t.
Proof.
  induction n as [|n IH]; intros t Rs; [reflexivity|].
  destruct t as [|c t].
  - cbn [app take_id]. destruct r as [|c r]; [reflexivity|].
    cbn [forallb] in Rs. apply andb_true_iff in Rs as [Hc _].
    destruct (is_id_char c) eqn:I; [|reflexivity].
    rewrite (@id_char_not_space c I) in Hc. discriminate.
  - cbn [app take_id]. rewrite IH by exact Rs. reflexivity.
Qed.

Lemma strip_prefix_spaces a r : forall s,
  forallb (fun c => negb (is_space c)) a = true ->
  forallb is_space r = true ->
  strip_prefix a (s ++ r)
  = match strip_prefix a s with Some t => Some (t ++ r) | None => None end.
Proof.
  induction a as [|x a IH]; intros s A Rs; [reflexivity|].
  cbn [forallb] in A. apply andb_true_iff in A as [Ax A].
  destruct s as [|c s].
  - cbn [app strip_prefix]. destruct r as [|c r]; [reflexivity|].
    cbn [forallb] in Rs. apply andb_true_iff in Rs as [Hc _].
    destruct (N.eqb_spec x c) as [->|_]; [|reflexivity].
    rewrite Hc in Ax. discriminate.
  - cbn [app strip_prefix]. destruct (x =? c)%N; [|reflexivity].
    apply IH; assumption.
Qed.

Lemma match_here_spaces alts r s :
  solid alts = true -> forallb is_space r = true ->
  match_here alts (s ++ r) = match_here alts s.
Proof.
  intros S Rs. induction alts as [|a alts IH]; [reflexivity|].
  cbn [solid forallb] in S. apply andb_true_iff in S as [Sa S].
  apply andb_true_iff in Sa as [_ Sa].
  cbn [match_here]. rewrite (@strip_prefix_spaces a r s Sa Rs).
  destruct (strip_prefix a s) as [t|]; [|exact (IH S)].
  rewrite take_id_spaces by exact Rs.
  destruct (take_id ID_LENGTH t); [reflexivity|exact (IH S)].
Qed.

Lemma match_here_at_space alts c s :
  solid alts = true -> is_space c = true -> match_here alts (c :: s) = None.
Proof.
  intros S Hc. induction alts as [|a alts IH]; [reflexivity|].
  cbn [solid forallb] in S. apply andb_true_iff in S as [Sa S].
  apply andb_true_iff in Sa as [Na Sa].
  cbn [match_here]. destruct a as [|x a]; [discriminate Na|].
  cbn [forallb] in Sa. apply andb_true_iff in Sa as [Sx _].
  cbn [strip_prefix]. destruct (N.eqb_spec x c) as [->|_]; [|exact (IH S)].
  rewrite Hc in Sx. discriminate.
Qed.

Lemma re_search_leading alts l s :
  solid alts = true -> forallb is_space l = true ->
  re_search alts (l ++ s) = re_search alts s.
Proof.
  intros S L. induction l as [|c l IH]; [reflexivity|].
  cbn [forallb] in L. apply andb_true_iff in L as [Hc L].
  cbn [app]. rewrite re_search_skip by (apply match_here_at_space; assumption).
  exact (IH L).
Qed.

Lemma re_search_trailing alts r s :
  solid alts = true -> forallb is_space r = true ->
  re_search alts (s ++ r) = re_search alts s.
Proof.
  intros S Rs. induction s as [|c s IH].
  - cbn [app]. rewrite <- (app_nil_r r), (@re_search_leading alts r [] S Rs).
    reflexivity.
  - rewrite (re_search_unfold alts (c :: s)).
    rewrite (re_search_unfold alts ((c :: s) ++ r)).
    rewrite (@match_here_spaces alts r (c :: s) S Rs).
    destruct (match_here alts (c :: s)); [reflexivity|exact IH].
Qed.

(** X2.  Trimming a line does not change what is extracted from it: white
    space around a link neither hides an identifier nor produces one, so
    [main] loses nothing by parsing the trimmed line. *)
Theorem extract_video_id_strip line :
  extract_video_id (strip line) = extract_video_id line.
Proof.
  destruct (strip_decompose line) as (l & r & E & L & Rs & _).
  rewrite E at 2. unfold extract_video_id.
  rewrite (@re_search_leading watch_markers l (strip line ++ r) eq_refl L).
  rewrite (@re_search_leading shorts_markers l (strip line ++ r) eq_refl L).
  rewrite (@re_search_trailing watch_markers r (strip line) eq_refl Rs).
  rewrite (@re_search_trailing shorts_markers r (strip line) eq_refl Rs).
  reflexivity.
Qed.

(** ** Reading the links file, continued *)

Section ReadingMore.

Context {R : Runtime}.

Lemma collected_from_lines lines id :
  In id (collected lines) ->
  video_id_ok id
  /\ exists line, In line lines /\ extract_video_id line = Some id.
Proof.
  unfold collected. rewrite in_flat_map. intros (line & I & H).
  unfold parsed in H. destruct (nonempty (strip line)); [|destruct H].
  destruct (extract_video_id (strip line)) as [id'|] eqn:X; [|destruct H].
  destruct H as [<-|[]]. split; [exact (extract_video_id_id_ok _ X)|].
  exists line. split; [exact I|]. rewrite <- extract_video_id_strip. exact X.
Qed.

(** X3.  Whatever the file holds, every identifier the reading phase returns
    is eleven characters of the class [[a-zA-Z0-9_-]] and is what
    [extract_video_id] finds in one of the lines of the file. *)
Theorem read_links_ids_well_formed w lines failure w' video_ids :
  open_links w = ((lines, failure), w') ->
  result_of (read_links w) = Ret video_ids ->
  Forall (fun id => video_id_ok id
                    /\ exists line, In line lines
                                    /\ extract_video_id line = Some id)
         video_ids.
Proof.
  intros O. unfold read_links, bind at 1, ask, result_of. rewrite O.
  cbn [fst snd]. unfold bind. rewrite scan_lines_run.
  destruct failure as [e|]; cbn [fst snd ret raise]; [discriminate|].
  intros [= <-]. apply Forall_forall. intros id I.
  apply collected_from_lines. exact I.
Qed.

Lemma line_kinds line :
  (if is_valid_line line then 1 else 0)
  + (if is_invalid_line line then 1 else 0)
  + (if is_blank line then 1 else 0) = 1.
Proof.
  unfold is_invalid_line, is_blank, is_valid_line, parsed.
  destruct (nonempty (strip line)); cbn; [|reflexivity].
  destruct (extract_video_id (strip line)); reflexivity.
Qed.

Lemma lines_partition lines :
  List.length (filter is_valid_line lines)
  + List.length (filter is_invalid_line lines)
  + List.length (filter is_blank lines)
  = List.length lines.
Proof.
  induction lines as [|line lines IH]; [reflexivity|].
  pose proof (line_kinds line) as K. cbn [filter List.length].
  destruct (is_valid_line line), (is_invalid_line line), (is_blank line);
    cbn [List.length] in *; lia.
Qed.

(** X4.  The loop over the lines accounts for every line once: the number of
    identifiers it returns, of skip warnings it prints and of blank lines add
    up to the number of lines.  It works line by line and in order: scanning
    [a ++ b] is scanning [a] and then [b], so a link that occurs twice is
    returned twice. *)
Theorem scan_lines_accounts_for_every_line lines a b video_ids w :
  (exists ids,
      result_of (scan_lines lines video_ids w) = Ret (video_ids ++ ids)
      /\ List.length ids
         + List.length (skip_warnings (trace_of (scan_lines lines video_ids w)))
         + List.length (filter is_blank lines)
         = List.length lines)
  /\ scan_lines (a ++ b) video_ids w
     = bind (scan_lines a video_ids) (fun ids => scan_lines b ids) w.
Proof.
  split.
  - exists (collected lines). rewrite scan_lines_run.
    unfold result_of, trace_of, skip_warnings. cbn [fst snd].
    split; [reflexivity|].
    rewrite skip_warnings_map, collected_length. unfold skipped.
    rewrite !length_map. apply lines_partition.
  - unfold bind. rewrite !scan_lines_run.
    unfold skipped, collected. rewrite filter_app, !map_app, flat_map_app.
    rewrite app_assoc. reflexivity.
Qed.

End ReadingMore.

(** ** Authenticator, continued *)

Section AuthenticatorMore.

Context {R : Runtime}.

(** X5.  Stored credentials that load and are valid are used as they are:
    the authenticator looks for the file, loads it and builds the service;
    it prints nothing, refreshes nothing, opens no browser and writes no
    file. *)
Theorem stored_valid_credentials_are_reused w w1 c w2 w3 :
  os_path_exists CREDENTIALS_FILE w = (true, w1) ->
  from_authorized_user_file w1 = (Ret c, w2) ->
  valid c w2 = (true, w3) ->
  get_authenticated_service w
  = after [Call (OsPathExists CREDENTIALS_FILE); Call FromAuthorizedUserFile]
          (build_service c w3)
  /\ calls (trace_of (get_authenticated_service w))
     = [OsPathExists CREDENTIALS_FILE; FromAuthorizedUserFile; Build]
  /\ prints (trace_of (get_authenticated_service w)) = [].
Proof.
  intros E L V.
  pose proof (get_authenticated_service_valid _
                (load_credentials_loaded _ E L) V) as Run.
  split; [exact Run|]. rewrite Run. unfold build_service, bind, call, trace_of.
  destruct (build c w3) as [[yt|e] w4]; split; reflexivity.
Qed.

(** X6.  An authentication that fails writes nothing: when the
    authenticator returns [None] it has neither saved credentials nor built
    a service.  When it returns a service it has built it exactly once, and
    it never saves more than once. *)
Theorem failed_authentication_saves_nothing w :
  (result_of (get_authenticated_service w) = Ret None ->
   count is_save (trace_of (get_authenticated_service w)) = 0
   /\ count is_build (trace_of (get_authenticated_service w)) = 0)
  /\ (forall youtube,
        result_of (get_authenticated_service w) = Ret (Some youtube) ->
        count is_build (trace_of (get_authenticated_service w)) = 1)
  /\ count is_save (trace_of (get_authenticated_service w)) <= 1.
Proof.
  unfold count, trace_of, result_of. unfold_script. cbn.
  repeat world_step;
    (split; [intros H; try discriminate H; split; reflexivity|];
     split; [intros yt H; try discriminate H; reflexivity|]; lia).
Qed.


(** X8.  A refresh that succeeds but leaves the credentials invalid is not
    trusted: the test of line 69 sends the authenticator into the
    interactive flow, and nothing is saved before it. *)
Theorem refreshed_but_invalid_goes_to_flow c w w1 c' w2 w3 :
  expired c w = (true, w1) ->
  truthy (refresh_token c) = true ->
  refresh c w1 = (Ret c', w2) ->
  valid c' w2 = (false, w3) ->
  authorize (Some c) w
  = after [Print MsgRefreshing; Call Refresh] (reauthenticate w3).
Proof.
  intros E T F V. unfold authorize.
  rewrite (@bind_run_ret _ _ _ (try_refresh c) _ w
             [Print MsgRefreshing; Call Refresh] (Some c') w2).
  - rewrite bind_bind.
    rewrite (@bind_run_ret _ _ _ (peek (valid c')) _ w2 [] false w3).
    + rewrite after_nil. reflexivity.
    + unfold peek. rewrite V. reflexivity.
  - unfold try_refresh, bind, peek, print, try_except, call.
    rewrite E, T. cbn [andb]. rewrite F. reflexivity.
Qed.

End AuthenticatorMore.

Lemma read_links_ids_well_formed_witness :
  Forall (fun id => video_id_ok id
                    /\ exists line, In line example_links
                                    /\ extract_video_id line = Some id)
         [lit "dQw4w9WgXcQ"; lit "abc12345678"].
Proof.
  apply (@read_links_ids_well_formed scripted (quiet (Some example_links))
           example_links None (quiet (Some example_links)));
    reflexivity.
Defined.

Lemma stored_valid_credentials_are_reused_witness :
  calls (trace_of (@get_authenticated_service scripted
                     (with_credentials (Some (Ret fresh)) (quiet None))))
  = [OsPathExists CREDENTIALS_FILE; FromAuthorizedUserFile; Build].
Proof.
  set (w := with_credentials (Some (Ret fresh)) (quiet None)).
  apply (@stored_valid_credentials_are_reused scripted w w fresh w w);
    reflexivity.
Defined.

Lemma failed_authentication_saves_nothing_witness :
  count is_save
    (trace_of (@get_authenticated_service scripted
                 (with_client_secrets false (quiet None)))) = 0.
Proof.
  destruct (@failed_authentication_saves_nothing scripted
              (with_client_secrets false (quiet None))) as [Failed _].
  apply Failed. reflexivity.
Defined.


Lemma refreshed_but_invalid_goes_to_flow_witness :
  calls (trace_of (@authorize scripted (Some stale)
                     (with_refresh (Ret spent) (quiet None))))
  = [Refresh; OsPathExists CLIENT_SECRETS_FILE; FromClientSecretsFile;
     RunLocalServer; SaveCredentials; Build].
Proof.
  set (w := with_refresh (Ret spent) (quiet None)).
  refine (eq_trans
            (f_equal (fun x => calls (trace_of x))
               (@refreshed_but_invalid_goes_to_flow scripted stale w w spent w w
                  eq_refl eq_refl eq_refl eq_refl)) _).
  reflexivity.
Defined.

(** ** Playlist client, continued *)

Section PlaylistClientMore.

Context {R : Runtime}.

Lemma create_playlist_calls yt title description privacy w :
  calls (trace_of (create_playlist yt title description privacy w))
  = [PlaylistsInsert title description privacy].
Proof.
  unfold trace_of, create_playlist, bind, print, try_except, call,
    subscript, decode, ret, raise.
  destruct (playlists_insert yt title description privacy w) as [[d|e] w1].
  - destruct (dict_get (lit "id") d); reflexivity.
  - destruct e; try reflexivity;
      try (destruct (is_Exception _); reflexivity).
    destruct (utf8_decode content); reflexivity.
Qed.

Lemma create_playlist_missing_id yt title description privacy w response w1 :
  playlists_insert yt title description privacy w = (Ret response, w1) ->
  dict_get (lit "id") response = None ->
  create_playlist yt title description privacy w
  = ([Print (MsgAttemptCreate title);
      Call (PlaylistsInsert title description privacy);
      Print (MsgCreateUnexpected (KeyError (lit "id")))], Ret None, w1).
Proof.
  intros P D. unfold create_playlist, bind, print, try_except, call, subscript.
  rewrite P, D. reflexivity.
Qed.

(** X9.  A response of the creation call without an ["id"] is an unexpected
    error, not a crash: the [KeyError] is printed, [create_playlist] returns
    [None] and the caller stops with the failure message and without any
    insertion.  An empty identifier is a failure for the caller as well,
    after the success message of [create_playlist]. *)
Theorem creation_without_identifier youtube video_ids w response w1 :
  playlists_insert youtube PLAYLIST_TITLE PLAYLIST_DESCRIPTION
                   PLAYLIST_PRIVACY_STATUS w = (Ret response, w1) ->
  (dict_get (lit "id") response = None ->
   fill_playlist youtube video_ids w
   = ([Print (MsgAttemptCreate PLAYLIST_TITLE);
       Call (PlaylistsInsert PLAYLIST_TITLE PLAYLIST_DESCRIPTION
                             PLAYLIST_PRIVACY_STATUS);
       Print (MsgCreateUnexpected (KeyError (lit "id")));
       Print MsgCreateFailed], Ret tt, w1))
  /\ (dict_get (lit "id") response = Some [] ->
      fill_playlist youtube video_ids w
      = ([Print (MsgAttemptCreate PLAYLIST_TITLE);
          Call (PlaylistsInsert PLAYLIST_TITLE PLAYLIST_DESCRIPTION
                                PLAYLIST_PRIVACY_STATUS);
          Print (MsgCreated PLAYLIST_TITLE []);
          Print MsgCreateFailed], Ret tt, w1)).
Proof.
  intros P. split; intros D.
  - pose proof (create_playlist_missing_id _ _ _ _ _ P D) as C.
    rewrite (@fill_playlist_failed _ youtube video_ids w _ w1 C). reflexivity.
  - pose proof (create_playlist_created _ _ _ _ _ P D) as C.
    unfold fill_playlist, bind at 1. rewrite C. reflexivity.
Qed.

(** X10.  [create_playlist] raises in two cases only: the creation call
    raised something that is not an [Exception], which passes through, or it
    raised an [HttpError] whose body is not UTF-8, and the decoding of the
    body in the handler raises.  Every other answer makes it return. *)
Theorem create_playlist_raises_only youtube title description privacy w r w1 e :
  playlists_insert youtube title description privacy w = (r, w1) ->
  (result_of (create_playlist youtube title description privacy w) = Raise e
   <-> (r = Raise e /\ is_Exception e = false)
       \/ (exists status content,
              r = Raise (HttpError status content)
              /\ utf8_decode content = None
              /\ e = UnicodeDecodeError content)).
Proof.
  intros P.
  unfold result_of, create_playlist, bind, print, try_except, call,
    subscript, decode, ret, raise.
  rewrite P. destruct r as [d|e0].
  - destruct (dict_get (lit "id") d); cbn; split;
      try discriminate; intros [[H _]|(st & ct & H & _)]; discriminate H.
  - destruct e0; cbn.
    + destruct (utf8_decode content) eqn:D; cbn; split.
      * discriminate.
      * intros [[[= <-] X]|(st & ct & [= <- <-] & D' & _)];
          [discriminate X | rewrite D in D'; discriminate D'].
      * intros [= <-]. right. exists status, content. auto.
      * intros [[[= <-] X]|(st & ct & [= <- <-] & _ & ->)];
          [discriminate X | reflexivity].
    + split; [discriminate|].
      intros [[[= <-] X]|(st & ct & H & _)]; [discriminate X|discriminate H].
    + split; [discriminate|].
      intros [[[= <-] X]|(st & ct & H & _)]; [discriminate X|discriminate H].
    + split; [discriminate|].
      intros [[[= <-] X]|(st & ct & H & _)]; [discriminate X|discriminate H].
    + split.
      * intros [= <-]. left. split; reflexivity.
      * intros [[[= <-] _]|(st & ct & H & _)]; [reflexivity|discriminate H].
Qed.

Lemma add_video_calls youtube playlist_id video_id w :
  calls (trace_of (add_video_to_playlist youtube playlist_id video_id w))
  = [PlaylistItemsInsert playlist_id video_id].
Proof.
  destruct (playlist_items_insert youtube playlist_id video_id w)
    as [r w1] eqn:P.
  destruct (handled r) eqn:H.
  - destruct (add_video_handled _ _ _ _ P H) as (t & -> & C). exact C.
  - destruct (add_video_unhandled _ _ _ _ P H) as (e & ->). reflexivity.
Qed.

(** X11.  [add_video_to_playlist] makes exactly one insertion call, whatever
    the answer, and returns [True] exactly when that call returned: no
    failure is ever counted as an added video. *)
Theorem add_video_true_iff_inserted youtube playlist_id video_id w :
  calls (trace_of (add_video_to_playlist youtube playlist_id video_id w))
  = [PlaylistItemsInsert playlist_id video_id]
  /\ (result_of (add_video_to_playlist youtube playlist_id video_id w)
      = Ret true
      <-> succeeded (fst (playlist_items_insert youtube playlist_id video_id w))
          = true).
Proof.
  split; [apply add_video_calls|].
  destruct (playlist_items_insert youtube playlist_id video_id w)
    as [r w1] eqn:P.
  cbn [fst]. destruct (handled r) eqn:H.
  - destruct (add_video_handled _ _ _ _ P H) as (t & -> & _).
    unfold result_of. cbn [fst snd]. destruct (succeeded r); split;
      try reflexivity; discriminate.
  - destruct (add_video_unhandled _ _ _ _ P H) as (e & ->).
    unfold result_of. cbn [fst snd]. destruct r as [[]|e0]; [discriminate H|].
    split; discriminate.
Qed.

End PlaylistClientMore.

Lemma creation_without_identifier_witness :
  prints (trace_of (@fill_playlist scripted tt [lit "dQw4w9WgXcQ"]
                      (with_create (Ret [(lit "kind", lit "youtube#playlist")])
                                   (quiet None))))
  = [MsgAttemptCreate DEFAULT_PLAYLIST_TITLE;
     MsgCreateUnexpected (KeyError (lit "id")); MsgCreateFailed].
Proof.
  set (w := with_create (Ret [(lit "kind", lit "youtube#playlist")])
                        (quiet None)).
  destruct (@creation_without_identifier scripted tt [lit "dQw4w9WgXcQ"] w
              [(lit "kind", lit "youtube#playlist")] w eq_refl)
    as [Missing _].
  refine (eq_trans (f_equal (fun x => prints (trace_of x)) (Missing eq_refl)) _).
  reflexivity.
Defined.

Lemma create_playlist_raises_only_witness :
  result_of (@create_playlist scripted tt (lit "t") (lit "d") (lit "unlisted")
               (with_create (Raise (HttpError 500 [xff])) (quiet None)))
  = Raise (UnicodeDecodeError [xff]).
Proof.
  set (w := with_create (Raise (HttpError 500 [xff])) (quiet None)).
  apply (@create_playlist_raises_only scripted tt (lit "t") (lit "d")
           (lit "unlisted") w (Raise (HttpError 500 [xff])) w
           (UnicodeDecodeError [xff]) eq_refl).
  right. exists 500%Z, [xff]. repeat split.
Defined.

(** ** The loop over the identifiers *)

Section Loop.

Context {R : Runtime}.

Lemma succeeded_count_le (rs : list (result unit)) :
  List.length (filter succeeded rs) <= List.length rs.
Proof. apply filter_length_le. Qed.

Lemma replies_length youtube playlist_id video_ids : forall w,
  List.length (replies youtube playlist_id video_ids w)
  = List.length video_ids.
Proof.
  induction video_ids as [|v rest IH]; intros w; [reflexivity|].
  cbn [replies].
  destruct (playlist_items_insert youtube playlist_id v w) as [r w1].
  cbn [List.length]. rewrite IH. reflexivity.
Qed.

(** X12.  When every answer of the service is one that
    [add_video_to_playlist] handles (success, a 404, an [HttpError] with a
    body that decodes, any other [Exception]), the loop attempts every
    identifier, in the order of the list and once each, and returns its
    counter increased by the number of successful insertions, which is at
    most the number of identifiers. *)
Theorem add_videos_counts_successes youtube playlist_id video_ids added_count w :
  forallb handled (replies youtube playlist_id video_ids w) = true ->
  exists t added w',
    add_videos youtube playlist_id video_ids added_count w = (t, Ret added, w')
    /\ added = added_count
               + List.length (filter succeeded
                                (replies youtube playlist_id video_ids w))
    /\ added <= added_count + List.length video_ids
    /\ calls t = map (PlaylistItemsInsert playlist_id) video_ids.
Proof.
  intros H.
  destruct (add_videos_handled youtube playlist_id video_ids added_count w H)
    as (t & w' & Run & C).
  eexists t, _, w'. split; [exact Run|]. split; [reflexivity|].
  split; [|exact C].
  pose proof (succeeded_count_le (replies youtube playlist_id video_ids w)) as Le.
  rewrite replies_length in Le. lia.
Qed.

(** X13.  The loop stops at the first answer that is not handled: the
    identifiers before it and the one it belongs to are attempted, those
    after it are not, and the loop raises instead of returning a count. *)
Theorem add_videos_stops_at_first_unhandled youtube playlist_id
    before video_id rest added_count w :
  forallb handled (replies youtube playlist_id before w) = true ->
  forallb handled (replies youtube playlist_id (before ++ [video_id]) w)
  = false ->
  exists t e w',
    add_videos youtube playlist_id (before ++ video_id :: rest) added_count w
    = (t, Raise e, w')
    /\ calls t = map (PlaylistItemsInsert playlist_id) (before ++ [video_id]).
Proof. apply add_videos_halts. Qed.

Lemma prints_after_calls (t : list Event) (msgs : list Msg) :
  calls (t ++ map Print msgs) = calls t.
Proof. rewrite calls_app, calls_of_prints, app_nil_r. reflexivity. Qed.

(** X14.  The report at the end.  After a creation that returns a non-empty
    identifier, and with answers that are all handled, the caller attempts
    every identifier against that playlist, then prints the number of
    successes out of the number of identifiers and the link of the playlist,
    and returns. *)
Theorem fill_playlist_reports youtube video_ids w response w1 pid :
  playlists_insert youtube PLAYLIST_TITLE PLAYLIST_DESCRIPTION
                   PLAYLIST_PRIVACY_STATUS w = (Ret response, w1) ->
  dict_get (lit "id") response = Some pid ->
  nonempty pid = true ->
  forallb handled (replies youtube pid video_ids w1) = true ->
  exists t w2,
    fill_playlist youtube video_ids w
    = (t ++ [Print (MsgFinished
                      (List.length (filter succeeded
                                      (replies youtube pid video_ids w1)))
                      (List.length video_ids));
             Print (MsgViewPlaylist pid)], Ret tt, w2)
    /\ calls t
       = PlaylistsInsert PLAYLIST_TITLE PLAYLIST_DESCRIPTION
                         PLAYLIST_PRIVACY_STATUS
           :: map (PlaylistItemsInsert pid) video_ids.
Proof.
  intros P D N H.
  pose proof (create_playlist_created _ _ _ _ _ P D) as C.
  destruct (add_videos_handled youtube pid video_ids 0 w1 H)
    as (t & w2 & Run & Cs).
  exists ([Print (MsgAttemptCreate PLAYLIST_TITLE);
           Call (PlaylistsInsert PLAYLIST_TITLE PLAYLIST_DESCRIPTION
                                 PLAYLIST_PRIVACY_STATUS);
           Print (MsgCreated PLAYLIST_TITLE pid); Print MsgStartAdding] ++ t),
    w2.
  split.
  - unfold fill_playlist, bind at 1. rewrite C, N.
    unfold bind, print. rewrite Run. cbn [app plus].
    rewrite ?app_nil_r, <- ?app_assoc. reflexivity.
  - rewrite calls_app, Cs. reflexivity.
Qed.

End Loop.

Lemma add_videos_counts_successes_witness :
  result_of (@add_videos scripted tt (lit "PL1")
               [lit "dQw4w9WgXcQ"; lit "abc12345678"; lit "9bZkp7q19f0"] 0
               (with_inserts [Ret tt; Raise (HttpError 404 []);
                              Raise (HttpError 400 (blit "duplicate"))]
                             (quiet None)))
  = Ret 1.
Proof.
  set (w := with_inserts [Ret tt; Raise (HttpError 404 []);
                          Raise (HttpError 400 (blit "duplicate"))]
                         (quiet None)).
  destruct (@add_videos_counts_successes scripted tt (lit "PL1")
              [lit "dQw4w9WgXcQ"; lit "abc12345678"; lit "9bZkp7q19f0"] 0 w
              eq_refl) as (t & added & w' & Run & Eq & _).
  refine (eq_trans (f_equal (fun x => result_of x) Run) _).
  unfold result_of. cbn [fst snd]. rewrite Eq. reflexivity.
Defined.

Lemma add_videos_stops_at_first_unhandled_witness :
  exists t e w',
    @add_videos scripted tt (lit "PL1")
      ([lit "dQw4w9WgXcQ"] ++ lit "abc12345678" :: [lit "9bZkp7q19f0"]) 0
      garbled_reply_world
    = (t, Raise e, w')
    /\ calls t = map (PlaylistItemsInsert (lit "PL1"))
                     ([lit "dQw4w9WgXcQ"] ++ [lit "abc12345678"]).
Proof.
  apply (@add_videos_stops_at_first_unhandled scripted tt (lit "PL1")
           [lit "dQw4w9WgXcQ"] (lit "abc12345678") [lit "9bZkp7q19f0"] 0
           garbled_reply_world);
    reflexivity.
Defined.

Lemma fill_playlist_reports_witness :
  exists t w2,
    @fill_playlist scripted tt [lit "dQw4w9WgXcQ"; lit "abc12345678"]
      (with_inserts [Ret tt; Raise (HttpError 404 [])] (quiet None))
    = (t ++ [Print (MsgFinished 1 2); Print (MsgViewPlaylist (lit "PL1"))],
       Ret tt, w2)
    /\ calls t
       = PlaylistsInsert DEFAULT_PLAYLIST_TITLE DEFAULT_PLAYLIST_DESCRIPTION
                         PLAYLIST_PRIVACY_STATUS
           :: map (PlaylistItemsInsert (lit "PL1"))
                  [lit "dQw4w9WgXcQ"; lit "abc12345678"].
Proof.
  set (w := with_inserts [Ret tt; Raise (HttpError 404 [])] (quiet None)).
  apply (@fill_playlist_reports scripted tt
           [lit "dQw4w9WgXcQ"; lit "abc12345678"] w
           [(lit "id", lit "PL1")] w (lit "PL1"));
    reflexivity.
Defined.

(** ** [main], continued *)

Section MainMore.

Context {R : Runtime}.

Lemma count_zero_not_in kind t op :
  count kind t = 0 -> In op (calls t) -> kind op = false.
Proof.
  unfold count. intros Z I. destruct (kind op) eqn:K; [|reflexivity].
  assert (In op (filter kind (calls t))) as F by (apply filter_In; auto).
  destruct (filter kind (calls t)); [destruct F|discriminate Z].
Qed.

(** X15.  A failed authentication ends the run before the playlist client:
    when the links file gives at least one identifier and the authenticator
    returns [None], [main] prints that the authentication failed and
    returns; no playlist is created and nothing is inserted. *)
Theorem main_authentication_failure w w1 t1 id ids w2 t2 w3 :
  os_path_exists YT_LINKS_FILE w = (true, w1) ->
  read_links w1 = (t1, Ret (id :: ids), w2) ->
  get_authenticated_service w2 = (t2, Ret None, w3) ->
  main w
  = (Call (OsPathExists YT_LINKS_FILE)
       :: t1 ++ Print (MsgFound (S (List.length ids)))
       :: t2 ++ [Print MsgAuthFailed], Ret tt, w3)
  /\ count is_creation (trace_of (main w)) = 0
  /\ count is_insertion (trace_of (main w)) = 0.
Proof.
  intros E L A.
  assert (main w
          = (Call (OsPathExists YT_LINKS_FILE)
               :: t1 ++ Print (MsgFound (S (List.length ids)))
               :: t2 ++ [Print MsgAuthFailed], Ret tt, w3)) as Run.
  { unfold main.
    rewrite (@bind_run_ret _ _ _ _ _ w [Call (OsPathExists YT_LINKS_FILE)]
               true w1) by (unfold ask; rewrite E; reflexivity).
    cbn [negb].
    rewrite (@bind_run_ret _ _ _ _ _ w1 t1 (id :: ids) w2 L).
    rewrite (@bind_run_ret _ _ _ (print (MsgFound (List.length (id :: ids))))
               _ w2 [Print (MsgFound (List.length (id :: ids)))] tt w2 eq_refl).
    rewrite (@bind_run_ret _ _ _ _ _ w2 t2 None w3 A).
    unfold print. cbn [after app List.length]. rewrite <- ?app_assoc.
    reflexivity. }
  split; [exact Run|]. rewrite Run. unfold trace_of. cbn [fst].
  pose proof (read_links_calls w1) as RL. rewrite L in RL.
  unfold trace_of in RL. cbn [fst] in RL.
  pose proof (authenticator_calls w2) as [AI AC]. rewrite A in AI, AC.
  unfold trace_of in AI, AC. cbn [fst] in AI, AC.
  change (Call (OsPathExists YT_LINKS_FILE)
            :: t1 ++ Print (MsgFound (S (List.length ids)))
            :: t2 ++ [Print MsgAuthFailed])
    with ([Call (OsPathExists YT_LINKS_FILE)]
            ++ t1 ++ [Print (MsgFound (S (List.length ids)))]
            ++ t2 ++ [Print MsgAuthFailed]).
  rewrite !count_app, AI, AC. unfold count. rewrite RL. split; reflexivity.
Qed.

Lemma add_videos_calls youtube playlist_id video_ids : forall added_count w,
  exists k,
    calls (trace_of (add_videos youtube playlist_id video_ids added_count w))
    = map (PlaylistItemsInsert playlist_id) (firstn k video_ids).
Proof.
  induction video_ids as [|v rest IH]; intros n w.
  - exists 0. reflexivity.
  - cbn [add_videos]. pose proof (add_video_calls youtube playlist_id v w) as C.
    unfold bind.
    destruct (add_video_to_playlist youtube playlist_id v w)
      as [[t1 [added|e]] w1]; unfold trace_of in C; cbn [fst] in C.
    + destruct (IH (if added then S n else n) w1) as [k K].
      unfold trace_of in *.
      destruct (add_videos youtube playlist_id rest
                           (if added then S n else n) w1) as [[t2 r] w2].
      cbn [fst] in *. exists (S k). rewrite calls_app, C, K. reflexivity.
    + exists 1. unfold trace_of. cbn [fst]. rewrite C. reflexivity.
Qed.

Lemma create_playlist_created_message yt title description privacy w pid :
  result_of (create_playlist yt title description privacy w) = Ret (Some pid) ->
  In (MsgCreated title pid)
     (prints (trace_of (create_playlist yt title description privacy w))).
Proof.
  unfold result_of, trace_of, create_playlist, bind, print, try_except, call,
    subscript, decode, ret, raise.
  destruct (playlists_insert yt title description privacy w) as [[d|e] w1].
  - destruct (dict_get (lit "id") d); cbn; [|discriminate].
    intros [= ->]. auto.
  - destruct e; cbn; try discriminate.
    destruct (utf8_decode content); cbn; discriminate.
Qed.

(** The calls of the playlist client: one creation, then insertions into
    the playlist whose creation was announced. *)
Lemma fill_playlist_calls youtube video_ids w :
  exists l,
    calls (trace_of (fill_playlist youtube video_ids w))
    = PlaylistsInsert PLAYLIST_TITLE PLAYLIST_DESCRIPTION
                      PLAYLIST_PRIVACY_STATUS :: l
    /\ forall op, In op l ->
         exists pid v,
           op = PlaylistItemsInsert pid v
           /\ In (MsgCreated PLAYLIST_TITLE pid)
                 (prints (trace_of (fill_playlist youtube video_ids w))).
Proof.
  pose proof (create_playlist_calls youtube PLAYLIST_TITLE PLAYLIST_DESCRIPTION
                PLAYLIST_PRIVACY_STATUS w) as C.
  pose proof (create_playlist_created_message youtube PLAYLIST_TITLE
                PLAYLIST_DESCRIPTION PLAYLIST_PRIVACY_STATUS w) as M.
  remember (fill_playlist youtube video_ids w) as run eqn:Run.
  unfold fill_playlist, bind at 1 in Run.
  destruct (create_playlist youtube PLAYLIST_TITLE PLAYLIST_DESCRIPTION
                            PLAYLIST_PRIVACY_STATUS w)
    as [[t [[pid|]|e]] w1]; unfold trace_of, result_of in *; cbn [fst snd] in *.
  - destruct (nonempty pid).
    + destruct (add_videos_calls youtube pid video_ids 0 w1) as [k K].
      unfold bind, print, trace_of in *.
      destruct (add_videos youtube pid video_ids 0 w1) as [[t2 [n|e]] w2];
        cbn [fst snd app] in *; subst run; cbn [fst].
      * exists (map (PlaylistItemsInsert pid) (firstn k video_ids)). split.
        -- rewrite calls_app, C. cbn [app calls flat_map]. rewrite calls_app, K.
           cbn. rewrite app_nil_r. reflexivity.
        -- intros op I. apply in_map_iff in I as (v & <- & _).
           exists pid, v. split; [reflexivity|].
           rewrite prints_app. apply in_or_app. left. apply M. reflexivity.
      * exists (map (PlaylistItemsInsert pid) (firstn k video_ids)). split.
        -- rewrite calls_app, C.
           change (calls (Print MsgStartAdding :: t2)) with (calls t2).
           rewrite K. reflexivity.
        -- intros op I. apply in_map_iff in I as (v & <- & _).
           exists pid, v. split; [reflexivity|].
           rewrite prints_app. apply in_or_app. left. apply M. reflexivity.
    + subst run. exists []. split; [|intros op []].
      unfold print. cbn [fst]. rewrite calls_app, C. reflexivity.
  - subst run. exists []. split; [|intros op []].
    unfold print. cbn [fst]. rewrite calls_app, C. reflexivity.
  - subst run. exists []. split; [exact C|intros op []].
Qed.

Lemma main_before_fill w :
  (count is_creation (trace_of (main w)) = 0
   /\ count is_insertion (trace_of (main w)) = 0)
  \/ exists t youtube video_ids w1,
       main w = after t (fill_playlist youtube video_ids w1)
       /\ count is_creation t = 0 /\ count is_insertion t = 0.
Proof.
  unfold main.
  destruct (os_path_exists YT_LINKS_FILE w) as [found w1] eqn:E.
  rewrite (@bind_run_ret _ _ _ _ _ w [Call (OsPathExists YT_LINKS_FILE)]
             found w1)
    by (unfold ask; rewrite E; reflexivity).
  destruct found; cbn [negb]; [|left; split; reflexivity].
  pose proof (read_links_calls w1) as RL.
  destruct (read_links w1) as [[t1 [[|id ids]|e]] w2] eqn:Links;
    unfold trace_of in RL; cbn [fst] in RL.
  - left. rewrite (@bind_run_ret _ _ _ _ _ w1 t1 [] w2 Links).
    unfold print. rewrite !after_after, !count_after.
    rewrite !count_app. unfold count at 2 5. rewrite RL. split; reflexivity.
  - rewrite (@bind_run_ret _ _ _ _ _ w1 t1 (id :: ids) w2 Links).
    rewrite (@bind_run_ret _ _ _ (print (MsgFound (List.length (id :: ids)))) _
               w2 [Print (MsgFound (List.length (id :: ids)))] tt w2 eq_refl).
    pose proof (authenticator_calls w2) as [AI AC].
    destruct (get_authenticated_service w2) as [[t2 [[yt|]|e]] w3] eqn:Auth;
      unfold trace_of in AI, AC; cbn [fst] in AI, AC.
    + right. rewrite (@bind_run_ret _ _ _ _ _ w2 t2 (Some yt) w3 Auth).
      rewrite !after_after.
      eexists _, yt, (id :: ids), w3. split; [reflexivity|].
      rewrite !count_app, AI, AC. unfold count. rewrite RL. split; reflexivity.
    + left. rewrite (@bind_run_ret _ _ _ _ _ w2 t2 None w3 Auth).
      rewrite !after_after. unfold print. rewrite !count_after.
      rewrite !count_app, AI, AC. unfold count. rewrite RL. split; reflexivity.
    + left. rewrite (@bind_run_raise _ _ _ _ _ w2 t2 e w3 Auth).
      rewrite !after_after, !count_after. unfold trace_of. cbn [fst].
      rewrite !count_app, AI, AC. unfold count. rewrite RL. split; reflexivity.
  - left. rewrite (@bind_run_raise _ _ _ _ _ w1 t1 e w2 Links).
    rewrite !count_after. unfold trace_of. cbn [fst].
    unfold count. rewrite RL. split; reflexivity.
Qed.

Lemma only_insertions_no_creation (l : list Op) :
  (forall op, In op l -> exists pid v, op = PlaylistItemsInsert pid v) ->
  filter is_creation l = [].
Proof.
  induction l as [|op l IH]; intros H; [reflexivity|].
  destruct (H op (or_introl eq_refl)) as (pid & v & ->). cbn.
  apply IH. intros op' I. apply H. right. exact I.
Qed.

(** X16.  One run, one playlist: [main] makes at most one creation call, and
    every insertion it makes goes into the playlist whose identifier
    [create_playlist] has announced in this run. *)
Theorem main_uses_one_playlist w :
  count is_creation (trace_of (main w)) <= 1
  /\ forall pid video_id,
       In (PlaylistItemsInsert pid video_id) (calls (trace_of (main w))) ->
       In (MsgCreated PLAYLIST_TITLE pid) (prints (trace_of (main w))).
Proof.
  destruct (main_before_fill w) as [[C I]|(t & yt & ids & w1 & Run & C & I)].
  - split; [lia|]. intros pid v H.
    pose proof (count_zero_not_in _ _ _ I H) as F. discriminate F.
  - destruct (fill_playlist_calls yt ids w1) as (l & L & Into).
    rewrite Run.
    assert (trace_of (after t (fill_playlist yt ids w1))
            = t ++ trace_of (fill_playlist yt ids w1)) as T.
    { destruct (fill_playlist yt ids w1) as [[t' r] w']. reflexivity. }
    rewrite T. split.
    + rewrite count_app, C. unfold count. rewrite L. cbn [filter is_creation].
      rewrite only_insertions_no_creation; [cbn; lia|].
      intros op H. destruct (Into op H) as (pid & v & -> & _). eauto.
    + intros pid v H. rewrite calls_app in H. apply in_app_or in H as [H|H].
      * pose proof (count_zero_not_in _ _ _ I H) as F. discriminate F.
      * rewrite L in H. destruct H as [H|H]; [discriminate H|].
        destruct (Into _ H) as (pid' & v' & [= <- <-] & M).
        rewrite prints_app. apply in_or_app. right. exact M.
Qed.

End MainMore.

Lemma main_authentication_failure_witness :
  count is_creation
    (trace_of (@main scripted
                 (with_client_secrets false (quiet (Some example_links)))))
  = 0.
Proof.
  set (w := with_client_secrets false (quiet (Some example_links))).
  destruct (@main_authentication_failure scripted w w
              [Call OpenLinks; Print (MsgSkipUrl (lit "not-a-url"))]
              (lit "dQw4w9WgXcQ") [lit "abc12345678"] w
              [Call (OsPathExists CREDENTIALS_FILE); Print MsgInitiatingFlow;
               Call (OsPathExists CLIENT_SECRETS_FILE);
               Print MsgSecretsNotFound; Print MsgSecretsDownload;
               Print MsgSecretsRename] w eq_refl eq_refl eq_refl)
    as (_ & Created & _).
  exact Created.
Defined.

(** ** Error bodies in ASCII *)

Section AsciiBodies.

Context {R : Runtime}.

Lemma utf8_decode_ascii content :
  forallb is_ascii_byte content = true ->
  utf8_decode content = Some (map Byte.to_N content).
Proof.
  unfold utf8_decode. induction content as [|b content IH]; intros H.
  - reflexivity.
  - cbn [forallb] in H. apply andb_true_iff in H as [Hb H].
    unfold is_ascii_byte in Hb. cbn [map utf8_decode_octets].
    rewrite Hb, (IH H). reflexivity.
Qed.

(** X17.  An error body made of ASCII bytes never triggers the decoding
    failure: whatever the status, the handler of [add_video_to_playlist]
    prints its message and returns [False], so such an answer never stops
    the loop, and [create_playlist] returns [None]. *)
Theorem ascii_error_bodies_are_handled content :
  forallb is_ascii_byte content = true ->
  (forall video_id status w,
      result_of (on_http_error video_id status content w) = Ret false)
  /\ (forall status, handled (Raise (HttpError status content)) = true)
  /\ (forall youtube title description privacy w status w1,
        playlists_insert youtube title description privacy w
        = (Raise (HttpError status content), w1) ->
        result_of (create_playlist youtube title description privacy w)
        = Ret None).
Proof.
  intros A. pose proof (utf8_decode_ascii _ A) as D. split; [|split].
  - intros vid status w. destruct (Z.eqb_spec status 404) as [->|N].
    + reflexivity.
    + rewrite (@on_http_error_decoded _ vid status content _ w N D).
      reflexivity.
  - intros status. cbn [handled]. rewrite D. apply orb_true_r.
  - intros yt t d p w status w1 P.
    rewrite (create_playlist_http_error _ _ _ _ _ P), D. reflexivity.
Qed.

End AsciiBodies.

Lemma ascii_error_bodies_are_handled_witness :
  result_of (@on_http_error scripted (lit "dQw4w9WgXcQ") 500
               (blit "backendError") (quiet None))
  = Ret false.
Proof.
  destruct (@ascii_error_bodies_are_handled scripted (blit "backendError")
              eq_refl) as [Add _].
  apply Add.
Defined.

(** ** The script around [main] *)

Section TopLevelFacts.

Context {R : Runtime}.

Variable open_log_file : World -> result unit * World.

Lemma main_without_links_file w w1 :
  os_path_exists YT_LINKS_FILE w = (false, w1) ->
  main w
  = ([Call (OsPathExists YT_LINKS_FILE); Print MsgLinksNotFound;
      Print MsgLinksHelp], Ret tt, w1).
Proof. intros E. unfold main, bind at 1, ask. rewrite E. reflexivity. Qed.

Lemma not_in_main (ev : ScriptEvent) (t : list Event) :
  (forall x, ev <> InMain x) -> ~ In ev (map InMain t).
Proof.
  intros N I. apply in_map_iff in I as (x & E & _). exact (N x (eq_sym E)).
Qed.

(** X18.  The script around [main].  An [Exception] never leaves the script:
    what it raises is the failure to open the log file, or something that is
    not an [Exception].  Once the log file is open the handlers are closed
    last, whatever happens.  The success message is printed exactly when
    [main] returns, and [main] returns from its early exits: when the links
    file is missing the script prints the error and then that the execution
    completed successfully. *)
Theorem script_contains_errors w :
  (forall e,
      snd (fst (script open_log_file w)) = Raise e ->
      (exists w0, open_log_file w = (Raise e, w0)) \/ is_Exception e = false)
  /\ (forall w0,
        open_log_file w = (Ret tt, w0) ->
        (exists t,
            fst (fst (script open_log_file w))
            = OpenLogFile :: PrintStarting :: t ++ [CloseHandlers])
        /\ (In PrintCompleted (fst (fst (script open_log_file w)))
            <-> result_of (main w0) = Ret tt)
        /\ (forall w1,
              os_path_exists YT_LINKS_FILE w0 = (false, w1) ->
              script open_log_file w
              = ([OpenLogFile; PrintStarting;
                  InMain (Call (OsPathExists YT_LINKS_FILE));
                  InMain (Print MsgLinksNotFound);
                  InMain (Print MsgLinksHelp);
                  PrintCompleted; CloseHandlers], Ret tt, w1))).
Proof.
  split.
  - intros e. unfold script, result_of.
    destruct (open_log_file w) as [[u|e0] w0].
    + destruct (main w0) as [[t [u'|e1]] w1]; cbn [fst snd]; [discriminate|].
      destruct (is_Exception e1) eqn:X; cbn [fst snd]; [discriminate|].
      intros [= <-]. right. exact X.
    + cbn [fst snd]. intros [= <-]. left. eauto.
  - intros w0 O. unfold script, trace_of, result_of. rewrite O.
    split; [|split].
    + destruct (main w0) as [[t [u|e]] w1].
      * exists (map InMain t ++ [PrintCompleted]). cbn [fst].
        rewrite <- app_assoc. reflexivity.
      * destruct (is_Exception e); cbn [fst].
        -- exists (map InMain t ++ [LogUnexpected e; PrintScriptError]).
           rewrite <- app_assoc. reflexivity.
        -- exists (map InMain t). reflexivity.
    + destruct (main w0) as [[t [[]|e]] w1]; cbn [fst snd].
      * split; [reflexivity|]. intros _. right. right. apply in_or_app.
        right. left. reflexivity.
      * split; [|discriminate]. intros I. exfalso.
        destruct (is_Exception e); cbn [fst] in I;
          destruct I as [I|[I|I]]; try discriminate I;
          apply in_app_or in I as [I|I];
          try (revert I; apply not_in_main; discriminate);
          cbn in I; intuition discriminate.
    + intros w1 E. rewrite (main_without_links_file _ E). reflexivity.
Qed.

End TopLevelFacts.

Lemma script_contains_errors_witness :
  @script scripted (fun w => (Ret tt, w)) (quiet None)
  = ([OpenLogFile; PrintStarting;
      InMain (Call (OsPathExists YT_LINKS_FILE));
      InMain (Print MsgLinksNotFound); InMain (Print MsgLinksHelp);
      PrintCompleted; CloseHandlers], Ret tt, quiet None).
Proof.
  destruct (@script_contains_errors scripted (fun w => (Ret tt, w))
              (quiet None)) as [_ Open].
  destruct (Open (quiet None) eq_refl) as (_ & _ & Missing).
  apply Missing. reflexivity.
Defined.

Lemma main_uses_one_playlist_witness :
  In (MsgCreated DEFAULT_PLAYLIST_TITLE (lit "PL1"))
     (prints (trace_of (@main scripted (quiet (Some example_links))))).
Proof.
  destruct (@main_uses_one_playlist scripted (quiet (Some example_links)))
    as [_ Into].
  apply (Into (lit "PL1") (lit "dQw4w9WgXcQ")).
  vm_compute. tauto.
Defined.
